(** * insinuante-api: the order checkout transaction and the address book

    A shallow embedding of the route handlers of [server.ts] that write to
    the Order, Order Line Item, Product, Address and User tables, and the
    properties of the checkout transaction proved on it.

    The handlers talk to PostgreSQL through the Prisma client.  The tables
    are finite maps from primary key to row; a handler is a function from
    the request and the database to a response and the database after the
    call.  Timestamps ([date], [createdAt]) are assigned by the database
    clock, no handler modelled here reads them, and they are left out of
    the rows. *)

From Stdlib Require Import ZArith QArith.
From stdpp Require Import base gmap strings list fin_maps.

Local Open Scope Z_scope.

(** Identifiers are the strings the database hands out and clients send
    back in request bodies and route parameters. *)
Abbreviation Id := string (only parsing).

(** Currency amounts ([total], [price]) are only ever copied by the
    handlers below, never computed with. *)
Abbreviation Decimal := Q (only parsing).

(** ** Rows *)

Module Product.
Record t := mk {
  name : string;
  description : string;
  price : Decimal;
  stock : Z;
  sold : Z;
  category : string;
  image : string;
  images : list string;
  variations : string;
  shopId : option Id
}.
End Product.

Module Order.
Record t := mk {
  customerId : Id;
  total : Decimal;
  paymentMethod : string;
  addressId : Id;
  status : string
}.
End Order.

Module OrderItem.
Record t := mk {
  id : Id;
  orderId : Id;
  productId : Id;
  name : string;
  quantity : Z;
  price : Decimal;
  image : string
}.
End OrderItem.

(** A text column is [None] where the request left the property out;
    whether the column may be empty is the schema's decision. *)
Module Address.
Record t := mk {
  userId : Id;
  zipCode : option string;
  street : option string;
  number : option string;
  complement : option string;
  neighborhood : option string;
  city : option string;
  state : option string;
  isPrimary : bool
}.
End Address.

Module User.
Record t := mk {
  name : string;
  email : option string;
  password : option string;
  cpf : option string;
  phone : option string;
  birthdate : option string;
  role : string
}.
End User.

Module Shop.
Record t := mk {
  userId : Id;
  name : option string;
  description : option string;
  image : string
}.
End Shop.

(** ** The database *)

Record DB := mkDB {
  users : gmap Id User.t;
  shops : gmap Id Shop.t;
  addresses : gmap Id Address.t;
  products : gmap Id Product.t;
  orders : gmap Id Order.t;
  orderItems : list OrderItem.t
}.

Definition set_users (f : gmap Id User.t → gmap Id User.t) (db : DB) : DB :=
  mkDB (f (users db)) (shops db) (addresses db) (products db) (orders db) (orderItems db).
Definition set_shops (f : gmap Id Shop.t → gmap Id Shop.t) (db : DB) : DB :=
  mkDB (users db) (f (shops db)) (addresses db) (products db) (orders db) (orderItems db).
Definition set_addresses (f : gmap Id Address.t → gmap Id Address.t) (db : DB) : DB :=
  mkDB (users db) (shops db) (f (addresses db)) (products db) (orders db) (orderItems db).
Definition set_products (f : gmap Id Product.t → gmap Id Product.t) (db : DB) : DB :=
  mkDB (users db) (shops db) (addresses db) (f (products db)) (orders db) (orderItems db).
Definition set_orders (f : gmap Id Order.t → gmap Id Order.t) (db : DB) : DB :=
  mkDB (users db) (shops db) (addresses db) (products db) (f (orders db)) (orderItems db).
Definition set_orderItems (f : list OrderItem.t → list OrderItem.t) (db : DB) : DB :=
  mkDB (users db) (shops db) (addresses db) (products db) (orders db) (f (orderItems db)).

(** The line items of one order, in the order the table holds them
    ([include: { items: true }]). *)
Definition items_of (oid : Id) (db : DB) : list OrderItem.t :=
  filter (λ i, OrderItem.orderId i = oid) (orderItems db).

(** ** Requests and responses *)

(** One element of [items] in the body of [POST /orders]. *)
Module Item.
Record t := mk {
  id : Id;
  name : string;
  quantity : Z;
  price : Decimal;
  image : string
}.
End Item.

(** The body of [POST /orders].  [items] is [None] when the property is
    missing or is not an array: [items.map] then throws a [TypeError]. *)
Module OrderReq.
Record t := mk {
  customerId : Id;
  total : Decimal;
  paymentMethod : string;
  addressId : Id;
  items : option (list Item.t)
}.
End OrderReq.

(** The body of [PUT /products/:id].  [price] and [stock] are what
    [parseFloat] and [parseInt] make of the properties, [None] for [NaN];
    [images] is [None] when the property is missing. *)
Inductive VariationsIn :=
  | VFalsy
  | VText (parsed : option string)
  | VValue (json : string).

Module ProductReq.
Record t := mk {
  name : option string;
  description : option string;
  price : option Decimal;
  stock : option Z;
  category : option string;
  variations : VariationsIn;
  images : option (list string)
}.
End ProductReq.

(** The body of [POST /addresses] and [PUT /addresses/:id]. *)
Module AddressReq.
Record t := mk {
  userId : option Id;
  zipCode : option string;
  street : option string;
  number : option string;
  complement : option string;
  neighborhood : option string;
  city : option string;
  state : option string;
  isPrimary : option bool
}.
End AddressReq.

(** The body of [POST /auth/register]. *)
Module UserData.
Record t := mk {
  name : option string;
  email : option string;
  password : option string;
  cpf : option string;
  phone : option string;
  birthdate : option string;
  role : option string
}.
End UserData.

Module AddressData.
Record t := mk {
  cep : option string;
  street : option string;
  number : option string;
  complement : option string;
  neighborhood : option string;
  city : option string;
  state : option string
}.
End AddressData.

Module ShopData.
Record t := mk {
  name : option string;
  description : option string;
  image : option string
}.
End ShopData.

Module RegisterReq.
Record t := mk {
  userData : option UserData.t;
  addressData : option AddressData.t;
  shopData : option ShopData.t
}.
End RegisterReq.

(** What [res.json] is given.  An order is sent with its line items only
    when the query that produced it asked for them. *)
Inductive Body :=
  | BError (msg : string)
  | BOrder (id : Id) (o : Order.t) (items : option (list OrderItem.t))
  | BAddress (id : Id) (a : Address.t)
  | BUser (id : Id) (u : User.t) (shop : option (Id * Shop.t))
  | BProduct (id : Id) (p : Product.t)
  | BEmpty.

Record Response := mkResponse { status : nat; body : Body }.

(** ** Store operations: state and exceptions *)

Inductive Exn :=
  | TypeError
  | SyntaxError
  | ValidationError
  | ConstraintViolation
  | RecordNotFound.

Inductive outcome (A : Type) :=
  | Return (a : A)
  | Throw (e : Exn).
Arguments Return {A} a.
Arguments Throw {A} e.

(** An awaited store call: it may write and it may throw.  A write that
    happened before a throw stays, unless a transaction undoes it. *)
Definition Prisma (A : Type) : Type := DB → outcome A * DB.

Definition ret {A} (a : A) : Prisma A := λ db, (Return a, db).
Definition throw {A} (e : Exn) : Prisma A := λ db, (Throw e, db).
Definition bind {A B} (m : Prisma A) (k : A → Prisma B) : Prisma B :=
  λ db, match m db with
        | (Return a, db') => k a db'
        | (Throw e, db') => (Throw e, db')
        end.
Definition get : Prisma DB := λ db, (Return db, db).
Definition modify (f : DB → DB) : Prisma unit := λ db, (Return tt, f db).

Notation "'let*' x := m 'in' k" := (bind m (λ x, k))
  (at level 10, x name, m at level 100, k at level 200, only parsing).
Notation "m >> k" := (bind m (λ _, k))
  (at level 100, k at level 200, right associativity, only parsing).

(** [prisma.$transaction(async (tx) => ...)]: the callback's writes are
    committed when it returns and undone when it throws; the exception is
    thrown on to the caller. *)
Definition transaction {A} (m : Prisma A) : Prisma A :=
  λ db, match m db with
        | (Return a, db') => (Return a, db')
        | (Throw e, _) => (Throw e, db)
        end.

(** [for (const x of xs) { await f(x) }] *)
Fixpoint for_of {A} (xs : list A) (f : A → Prisma unit) : Prisma unit :=
  match xs with
  | [] => ret tt
  | x :: xs' => f x >> for_of xs' f
  end.

(** [xs.map(f)] on a value that may not be an array. *)
Definition js_map {A B} (xs : option (list A)) (f : A → B) : Prisma (list B) :=
  match xs with
  | Some l => ret (f <$> l)
  | None => throw TypeError
  end.

(** The iterable of a [for ... of] on a value that may not be one. *)
Definition js_iter {A} (xs : option (list A)) : Prisma (list A) :=
  match xs with
  | Some l => ret l
  | None => throw TypeError
  end.

(** [o.f] on a value that may be [undefined]. *)
Definition js_get {A B} (o : option A) (f : A → B) : Prisma B :=
  match o with
  | Some a => ret (f a)
  | None => throw TypeError
  end.

(** [v || d] on a string that may be missing; the empty string is falsy. *)
Definition js_or (v : option string) (d : string) : string :=
  match v with
  | Some s => if decide (s = "") then d else s
  | None => d
  end.

(** [if (v)] and [!!v] on a boolean that may be missing. *)
Definition js_truthy (v : option bool) : bool := default false v.

(** A column under an update whose [data] may leave the property
    [undefined]. *)
Definition keep {A} (v : option A) (old : A) : A := default old v.

(** A route handler whose body is one [try] block that ends by sending a
    response, with a [catch] block that only sends one. *)
Definition Handler : Type := DB → Response * DB.

Definition try_respond (m : Prisma Response) (caught : Response) : Handler :=
  λ db, match m db with
        | (Return r, db') => (r, db')
        | (Throw _, db') => (caught, db')
        end.

(** ** Writes the schema decides on *)

(** The object [POST /orders] builds for each element of [items]. *)
Module ItemCreate.
Record t := mk {
  productId : Id;
  name : string;
  quantity : Z;
  price : Decimal;
  image : string
}.
End ItemCreate.

(** The rows a [create] asks the database to insert.  Whether the database
    takes them (foreign keys, unique columns) is for the Prisma schema to
    say; the handlers are modelled, and the properties proved, for any
    schema. *)
Inductive Insert :=
  | InsOrder (o : Order.t) (rows : list ItemCreate.t)
  | InsAddress (a : Address.t)
  | InsUser (u : User.t) (a : Address.t) (s : option Shop.t).

Definition item_ids (db : DB) : gset Id :=
  list_to_set (OrderItem.id <$> orderItems db).

(** [{ decrement: q }] and [{ increment: q }] on a numeric column. *)
Definition decrement (q : Z) (n : Z) : Z := n - q.
Definition increment (q : Z) (n : Z) : Z := n + q.

Definition sale (q : Z) (p : Product.t) : Product.t :=
  Product.mk (Product.name p) (Product.description p) (Product.price p)
    (decrement q (Product.stock p)) (increment q (Product.sold p))
    (Product.category p) (Product.image p) (Product.images p)
    (Product.variations p) (Product.shopId p).

Definition to_row (item : Item.t) : ItemCreate.t :=
  {| ItemCreate.productId := Item.id item;
     ItemCreate.name := Item.name item;
     ItemCreate.quantity := Item.quantity item;
     ItemCreate.price := Item.price item;
     ItemCreate.image := Item.image item |}.

Section Schema.

(** The decision of the schema on an insertion, and the identifier the
    database gives a new row of a table whose keys in use are given. *)
Variable accepts : DB → Insert → bool.
Variable new_id : gset Id → Id.

Fixpoint create_items (used : gset Id) (oid : Id) (rows : list ItemCreate.t)
    : list OrderItem.t :=
  match rows with
  | [] => []
  | r :: rows' =>
      let i := new_id used in
      OrderItem.mk i oid (ItemCreate.productId r) (ItemCreate.name r)
        (ItemCreate.quantity r) (ItemCreate.price r) (ItemCreate.image r)
      :: create_items ({[i]} ∪ used) oid rows'
  end.

(** The order and its line items, inserted. *)
Definition insert_order (data : Order.t) (rows : list ItemCreate.t) (db : DB) : DB :=
  let oid := new_id (dom (orders db)) in
  set_orderItems (λ l, l ++ create_items (item_ids db) oid rows)
    (set_orders <[oid := data]> db).

(** [order.create({ data: { ..., items: { create: rows } }, include })]:
    the order and its line items are inserted together.  The line items
    are part of the result only under [include: { items: true }]. *)
Definition order_create (data : Order.t) (rows : list ItemCreate.t)
    (include_items : bool) : Prisma (Id * Order.t * option (list OrderItem.t)) :=
  let* db := get in
  if accepts db (InsOrder data rows) then
    let oid := new_id (dom (orders db)) in
    modify (insert_order data rows) >>
    let* db' := get in
    ret (oid, data, if include_items then Some (items_of oid db') else None)
  else throw ConstraintViolation.

(** [product.update({ where: { id }, data })] throws when no row has the
    identifier. *)
Definition product_update (id : Id) (data : Product.t → Product.t) : Prisma Product.t :=
  let* db := get in
  match products db !! id with
  | None => throw RecordNotFound
  | Some p => modify (set_products <[id := data p]>) >> ret (data p)
  end.

(** The body of the loop that takes an item out of stock. *)
Definition take_out_of_stock (item : Item.t) : Prisma unit :=
  product_update (Item.id item) (sale (Item.quantity item)) >> ret tt.

Definition order_data (req : OrderReq.t) : Order.t :=
  {| Order.customerId := OrderReq.customerId req;
     Order.total := OrderReq.total req;
     Order.paymentMethod := OrderReq.paymentMethod req;
     Order.addressId := OrderReq.addressId req;
     Order.status := "A Enviar" |}.

(** The callback [POST /orders] hands to [$transaction]. *)
Definition checkout (req : OrderReq.t)
    : Prisma (Id * Order.t * option (list OrderItem.t)) :=
  let* rows := js_map (OrderReq.items req) to_row in
  let* order := order_create (order_data req) rows false in
  let* items := js_iter (OrderReq.items req) in
  for_of items take_out_of_stock >>
  ret order.

Definition checkout_error : Response :=
  mkResponse 500 (BError "Erro ao processar pagamento ou falta de estoque.").

(** [POST /orders], the checkout that takes the items out of stock. *)
Definition post_orders (req : OrderReq.t) : Handler :=
  try_respond
    (let* result := transaction (checkout req) in
     ret (mkResponse 201 (BOrder result.1.1 result.1.2 result.2)))
    checkout_error.

Definition mobile_error : Response :=
  mkResponse 500 (BError "Erro ao fechar pedido").

(** [POST /orders] of the mobile checkout: the order and its line items,
    nothing else. *)
Definition post_orders_mobile (req : OrderReq.t) : Handler :=
  try_respond
    (let* rows := js_map (OrderReq.items req) to_row in
     let* order := order_create (order_data req) rows true in
     ret (mkResponse 201 (BOrder order.1.1 order.1.2 order.2)))
    mobile_error.

Definition put_products_error : Response :=
  mkResponse 500 (BError "Erro ao atualizar o produto no banco de dados.").

(** [PUT /products/:id], the catalog edit: it sets [stock] to the number
    sent and leaves [sold] alone. *)
Definition put_products (id : Id) (req : ProductReq.t) : Handler :=
  try_respond
    (let* images := js_iter (ProductReq.images req) in
     let image := match images with i :: _ => i | [] => "https://placehold.co/400" end in
     let* variations :=
       match ProductReq.variations req with
       | VFalsy => ret "[]"
       | VText (Some json) => ret json
       | VText None => throw SyntaxError
       | VValue json => ret json
       end in
     let* product :=
       match ProductReq.price req, ProductReq.stock req with
       | Some price, Some stock =>
           product_update id (λ p,
             Product.mk (keep (ProductReq.name req) (Product.name p))
               (keep (ProductReq.description req) (Product.description p))
               price stock (Product.sold p)
               (keep (ProductReq.category req) (Product.category p))
               image images variations (Product.shopId p))
       | _, _ => throw ValidationError
       end in
     ret (mkResponse 200 (BProduct id product)))
    put_products_error.

(** [address.updateMany({ where: { userId }, data: { isPrimary: false } })];
    a [where] whose [userId] is [undefined] selects every row. *)
Definition unset_primary (a : Address.t) : Address.t :=
  Address.mk (Address.userId a) (Address.zipCode a) (Address.street a)
    (Address.number a) (Address.complement a) (Address.neighborhood a)
    (Address.city a) (Address.state a) false.

Definition selects (userId : option Id) (a : Address.t) : bool :=
  match userId with
  | Some u => bool_decide (Address.userId a = u)
  | None => true
  end.

Definition address_clear_primary (userId : option Id) : Prisma unit :=
  modify (set_addresses (fmap (λ a, if selects userId a then unset_primary a else a))).

(** The row [POST /addresses] asks for. *)
Definition new_address (u : Id) (req : AddressReq.t) (isPrimary : bool) : Address.t :=
  Address.mk u (AddressReq.zipCode req) (AddressReq.street req)
    (AddressReq.number req) (AddressReq.complement req)
    (AddressReq.neighborhood req) (AddressReq.city req)
    (AddressReq.state req) isPrimary.

(** [address.create({ data })]; [userId] is required. *)
Definition address_create (req : AddressReq.t) (isPrimary : bool)
    : Prisma (Id * Address.t) :=
  match AddressReq.userId req with
  | None => throw ValidationError
  | Some u =>
      let* db := get in
      if accepts db (InsAddress (new_address u req isPrimary)) then
        let id := new_id (dom (addresses db)) in
        modify (set_addresses <[id := new_address u req isPrimary]>) >>
        ret (id, new_address u req isPrimary)
      else throw ConstraintViolation
  end.

(** The row [PUT /addresses/:id] leaves: a property that is [undefined]
    in [data] leaves its column as it is. *)
Definition edited_address (req : AddressReq.t) (a : Address.t) : Address.t :=
  Address.mk (Address.userId a)
    (AddressReq.zipCode req ∪ Address.zipCode a)
    (AddressReq.street req ∪ Address.street a)
    (AddressReq.number req ∪ Address.number a)
    (AddressReq.complement req ∪ Address.complement a)
    (AddressReq.neighborhood req ∪ Address.neighborhood a)
    (AddressReq.city req ∪ Address.city a)
    (AddressReq.state req ∪ Address.state a)
    (keep (AddressReq.isPrimary req) (Address.isPrimary a)).

(** [address.update({ where: { id }, data })] throws when no row has the
    identifier. *)
Definition address_update (id : Id) (req : AddressReq.t) : Prisma Address.t :=
  let* db := get in
  match addresses db !! id with
  | None => throw RecordNotFound
  | Some a =>
      modify (set_addresses <[id := edited_address req a]>) >>
      ret (edited_address req a)
  end.

(** [address.delete({ where: { id } })] *)
Definition address_delete (id : Id) : Prisma unit :=
  let* db := get in
  match addresses db !! id with
  | None => throw RecordNotFound
  | Some _ => modify (set_addresses (delete id))
  end.

Definition post_addresses_error : Response :=
  mkResponse 500 (BError "Erro ao cadastrar endereço.").

Definition put_addresses_error : Response :=
  mkResponse 500 (BError "Erro ao atualizar endereço.").

(** [if (isPrimary) await address.updateMany(...)] *)
Definition clear_if_primary (req : AddressReq.t) : Prisma unit :=
  if js_truthy (AddressReq.isPrimary req)
  then address_clear_primary (AddressReq.userId req)
  else ret tt.

(** [POST /addresses] *)
Definition post_addresses (req : AddressReq.t) : Handler :=
  try_respond
    (clear_if_primary req >>
     let* newAddress := address_create req (js_truthy (AddressReq.isPrimary req)) in
     ret (mkResponse 201 (BAddress newAddress.1 newAddress.2)))
    post_addresses_error.

(** [PUT /addresses/:id] *)
Definition put_addresses (id : Id) (req : AddressReq.t) : Handler :=
  try_respond
    (clear_if_primary req >>
     let* updated := address_update id req in
     ret (mkResponse 200 (BAddress id updated)))
    put_addresses_error.

(** [DELETE /addresses/:id] *)
Definition delete_addresses (id : Id) : Handler :=
  try_respond
    (address_delete id >> ret (mkResponse 204 BEmpty))
    (mkResponse 500 (BError "Erro ao remover endereço.")).

(** [user.create] with the nested [addresses: { create }] and
    [shop: { create }]: the user, its address and its shop are inserted
    together or not at all. *)
Definition user_create (u : User.t) (a : Id → Address.t) (s : option (Id → Shop.t))
    : Prisma (Id * User.t * option (Id * Shop.t)) :=
  let* db := get in
  let uid := new_id (dom (users db)) in
  if accepts db (InsUser u (a uid) ((λ f, f uid) <$> s)) then
    modify (set_users <[uid := u]>) >>
    modify (set_addresses <[new_id (dom (addresses db)) := a uid]>) >>
    match s with
    | Some f =>
        let sid := new_id (dom (shops db)) in
        modify (set_shops <[sid := f uid]>) >> ret (uid, u, Some (sid, f uid))
    | None => ret (uid, u, None)
    end
  else throw ConstraintViolation.

Definition missing_user_data : Response :=
  mkResponse 400 (BError "Dados do usuário (nome, email) são obrigatórios.").

Definition register_error : Response :=
  mkResponse 400 (BError "Erro ao criar utilizador. Verifique se o email já existe.").

Definition reply (r : Response) : Handler := λ db, (r, db).

(** The rows [POST /auth/register] asks for. *)
Definition first_address (addressData : AddressData.t) (uid : Id) : Address.t :=
  Address.mk uid (AddressData.cep addressData)
    (AddressData.street addressData) (AddressData.number addressData)
    (AddressData.complement addressData) (AddressData.neighborhood addressData)
    (AddressData.city addressData) (AddressData.state addressData) true.

Definition new_user (name : string) (userData : UserData.t) : User.t :=
  User.mk name (UserData.email userData) (UserData.password userData)
    (UserData.cpf userData) (UserData.phone userData)
    (UserData.birthdate userData) (js_or (UserData.role userData) "SELLER").

Definition new_shop (shopData : ShopData.t) (uid : Id) : Shop.t :=
  Shop.mk uid (ShopData.name shopData) (ShopData.description shopData)
    (js_or (ShopData.image shopData) "https://placehold.co/400").

(** [POST /auth/register]; [!userData || !userData.name] holds when either
    is missing or the name is the empty string. *)
Definition post_auth_register (req : RegisterReq.t) : Handler :=
  match RegisterReq.userData req with
  | None => reply missing_user_data
  | Some userData =>
      match UserData.name userData with
      | None => reply missing_user_data
      | Some name =>
          if decide (name = "") then reply missing_user_data
          else
            try_respond
              (let* address := js_get (RegisterReq.addressData req) first_address in
               let* newUser := user_create (new_user name userData) address
                                 (new_shop <$> RegisterReq.shopData req) in
               ret (mkResponse 201 (BUser newUser.1.1 newUser.1.2 newUser.2)))
              register_error
      end
  end.

End Schema.

(** ** Notions the properties are stated with *)

(** The total quantity the line items [l] order of product [pid]. *)
Definition ordered (pid : Id) (l : list Item.t) : Z :=
  foldr (λ item n, if decide (Item.id item = pid) then Item.quantity item + n else n) 0 l.

(** The snapshot a line item holds of what the caller sent. *)
Definition snapshot (i : OrderItem.t) : ItemCreate.t :=
  {| ItemCreate.productId := OrderItem.productId i;
     ItemCreate.name := OrderItem.name i;
     ItemCreate.quantity := OrderItem.quantity i;
     ItemCreate.price := OrderItem.price i;
     ItemCreate.image := OrderItem.image i |}.

(** Checkouts run one after the other, and what they order of a product
    in total. *)
Definition one_by_one (accepts : DB → Insert → bool) (new_id : gset Id → Id)
    (reqs : list OrderReq.t) (db : DB) : DB :=
  foldl (λ d req, (post_orders accepts new_id req d).2) db reqs.

Definition ordered_in_all (pid : Id) (reqs : list OrderReq.t) : Z :=
  foldr (λ req n, ordered pid (default [] (OrderReq.items req)) + n) 0 reqs.

(** A store call that leaves the Order Line Item table as it is. *)
Definition keeps_items {A} (m : Prisma A) : Prop :=
  ∀ db, orderItems (m db).2 = orderItems db.

(** Referential integrity: a line item belongs to an order of the Order
    table, an address to a user of the User table. *)
Definition items_owned (db : DB) : Prop :=
  ∀ i, i ∈ orderItems db → OrderItem.orderId i ∈ dom (orders db).

Definition addresses_owned (db : DB) : Prop :=
  ∀ id a, addresses db !! id = Some a → Address.userId a ∈ dom (users db).

(** Address [id] is a primary address of user [u]. *)
Definition primary_of (db : DB) (u : Id) (id : Id) : Prop :=
  ∃ a, addresses db !! id = Some a ∧ Address.userId a = u ∧ Address.isPrimary a = true.

Definition one_primary (db : DB) : Prop :=
  ∀ u i j, primary_of db u i → primary_of db u j → i = j.

(** ** A database to try the handlers on

    A schema whose foreign keys are the buyer and the shipping address of
    an order and the owner of an address, and whose users have distinct
    e-mail addresses; identifiers are taken in turn. *)
Definition fk_accepts (db : DB) (w : Insert) : bool :=
  match w with
  | InsOrder o _ =>
      bool_decide (Order.customerId o ∈ dom (users db)) &&
      bool_decide (Order.addressId o ∈ dom (addresses db))
  | InsAddress a => bool_decide (Address.userId a ∈ dom (users db))
  | InsUser u _ _ =>
      bool_decide (map_Forall (λ _ v, User.email v ≠ User.email u) (users db))
  end.

Definition next_id (used : gset Id) : Id := fresh used.

Definition ana : User.t :=
  User.mk "Ana" (Some "ana@loja.br") (Some "segredo") None None None "BUYER".

Definition home (u : Id) (primary : bool) : Address.t :=
  Address.mk u (Some "40000-000") (Some "Rua A") (Some "1") None
    (Some "Centro") (Some "Salvador") (Some "BA") primary.

Definition shirt : Product.t :=
  Product.mk "Camisa" "Camisa azul" (10 # 1) 5 0 "roupas" "u" ["u"] "[]" None.

Definition db0 : DB :=
  mkDB {[ "u1" := ana ]} ∅
    (<[ "a1" := home "u1" true ]> {[ "a2" := home "u1" false ]})
    {[ "X" := shirt ]} ∅ [].

Definition line (id : Id) (q : Z) : Item.t := Item.mk id "A" q (12 # 1) "img".

Definition cart (l : option (list Item.t)) : OrderReq.t :=
  OrderReq.mk "u1" (30 # 1) "card" "a1" l.

Definition address_of (u : Id) (primary : option bool) : AddressReq.t :=
  AddressReq.mk (Some u) (Some "41000-000") (Some "Rua B") (Some "2") None
    (Some "Barra") (Some "Salvador") (Some "BA") primary.

Definition bia : RegisterReq.t :=
  RegisterReq.mk
    (Some (UserData.mk (Some "Bia") (Some "bia@loja.br") (Some "senha") None None None None))
    (Some (AddressData.mk (Some "42000-000") (Some "Rua C") (Some "3") None
             (Some "Pituba") (Some "Salvador") (Some "BA")))
    (Some (ShopData.mk (Some "Loja da Bia") None None)).

(** ** The other handlers

    [PATCH /orders/:id/status], [POST /auth/login] and the seller's
    dashboard work on the tables above; the cart and the favourites have
    tables of their own, held as the list of their rows. *)

(** [order.update({ where: { id }, data })] throws when no row has the
    identifier. *)
Definition order_update (id : Id) (data : Order.t → Order.t) : Prisma Order.t :=
  let* db := get in
  match orders db !! id with
  | None => throw RecordNotFound
  | Some o => modify (set_orders <[id := data o]>) >> ret (data o)
  end.

(** [data: { status }], where [status] may be missing from the body. *)
Definition with_status (status : option string) (o : Order.t) : Order.t :=
  Order.mk (Order.customerId o) (Order.total o) (Order.paymentMethod o)
    (Order.addressId o) (keep status (Order.status o)).

Definition patch_orders_status_error : Response :=
  mkResponse 500 (BError "Erro ao atualizar status do pedido").

(** [PATCH /orders/:id/status] *)
Definition patch_orders_status (id : Id) (status : option string) : Handler :=
  try_respond
    (let* updatedOrder := order_update id (with_status status) in
     ret (mkResponse 200 (BOrder id updatedOrder None)))
    patch_orders_status_error.

(** The body of [POST /auth/login]. *)
Module LoginReq.
Record t := mk {
  email : string;
  password : string
}.
End LoginReq.

(** [findFirst({ where })] on a table: the first row, in the order the
    table lists them, that the condition holds of. *)
Definition find_first {A} (where_ : A → bool) (table : gmap Id A) : option (Id * A) :=
  find (λ row, where_ row.2) (map_to_list table).

(** [where: { email, password }] *)
Definition credentials_match (req : LoginReq.t) (u : User.t) : bool :=
  bool_decide (User.email u = Some (LoginReq.email req)) &&
  bool_decide (User.password u = Some (LoginReq.password req)).

(** [include: { shop: true }] *)
Definition shop_of (uid : Id) (db : DB) : option (Id * Shop.t) :=
  find_first (λ s, bool_decide (Shop.userId s = uid)) (shops db).

Definition invalid_credentials : Response :=
  mkResponse 401 (BError "Credenciais inválidas").

(** [POST /auth/login]; it reads and does not write. *)
Definition post_auth_login (req : LoginReq.t) (db : DB) : Response :=
  match find_first (credentials_match req) (users db) with
  | None => invalid_credentials
  | Some (id, user) => mkResponse 200 (BUser id user (shop_of id db))
  end.

(** [GET /seller/stats/:shopId]: the orders with a line item whose product
    is of the shop, counted by status. *)
Record Stats := mkStats {
  aPagar : nat;
  aEnviar : nat;
  enviado : nat;
  cancelado : nat
}.

(** [product: { shopId }] on a line item; a line item whose product is
    gone is of no shop. *)
Definition product_of_shop (shopId : Id) (db : DB) (productId : Id) : bool :=
  match products db !! productId with
  | Some p => bool_decide (Product.shopId p = Some shopId)
  | None => false
  end.

Definition sold_by (shopId : Id) (db : DB) (i : OrderItem.t) : bool :=
  product_of_shop shopId db (OrderItem.productId i).

(** [where: { items: { some: { product: { shopId } } } }] *)
Definition order_of_shop (shopId : Id) (db : DB) (row : Id * Order.t) : bool :=
  existsb (sold_by shopId db) (items_of row.1 db).

Definition shop_orders (shopId : Id) (db : DB) : list (Id * Order.t) :=
  List.filter (order_of_shop shopId db) (map_to_list (orders db)).

(** [orders.filter(o => o.status === s).length] *)
Definition count_status (s : string) (rows : list (Id * Order.t)) : nat :=
  length (List.filter (λ row, bool_decide (Order.status row.2 = s)) rows).

Definition get_seller_stats (shopId : Id) (db : DB) : Stats :=
  let orders := shop_orders shopId db in
  {| aPagar := count_status "A Pagar" orders;
     aEnviar := count_status "A Enviar" orders;
     enviado := count_status "Enviando" orders;
     cancelado := count_status "Cancelado" orders |}.

(** *** The cart *)

Module CartItem.
Record t := mk {
  id : Id;
  userId : Id;
  productId : Id;
  name : string;
  price : Decimal;
  quantity : Z;
  image : string
}.
End CartItem.

(** The body of [POST /cart]. *)
Module CartReq.
Record t := mk {
  userId : Id;
  productId : Id;
  name : string;
  price : Decimal;
  quantity : Z;
  image : string
}.
End CartReq.

(** A status and what [res.json] is given. *)
Record Reply (A : Type) := mkReply { code : nat; payload : A }.
Arguments mkReply {A} code payload.
Arguments code {A} r.
Arguments payload {A} r.

(** [where: { userId, productId }] *)
Definition in_cart (userId productId : Id) (c : CartItem.t) : bool :=
  bool_decide (CartItem.userId c = userId) &&
  bool_decide (CartItem.productId c = productId).

Definition with_quantity (q : Z) (c : CartItem.t) : CartItem.t :=
  CartItem.mk (CartItem.id c) (CartItem.userId c) (CartItem.productId c)
    (CartItem.name c) (CartItem.price c) q (CartItem.image c).

(** [cartItem.update({ where: { id }, data })] throws when no row has the
    identifier. *)
Definition cart_update (id : Id) (data : CartItem.t → CartItem.t)
    (cart : list CartItem.t) : outcome CartItem.t * list CartItem.t :=
  match find (λ c, bool_decide (CartItem.id c = id)) cart with
  | None => (Throw RecordNotFound, cart)
  | Some c =>
      (Return (data c),
       (λ r, if decide (CartItem.id r = id) then data r else r) <$> cart)
  end.

(** [GET /cart/:userId] *)
Definition get_cart (userId : Id) (cart : list CartItem.t) : list CartItem.t :=
  List.filter (λ c, bool_decide (CartItem.userId c = userId)) cart.

(** [PUT /cart/:id]; it has no [try], an exception is not answered. *)
Definition put_cart (id : Id) (quantity : option Z) (cart : list CartItem.t)
    : outcome (Reply CartItem.t) * list CartItem.t :=
  match cart_update id (λ c, with_quantity (keep quantity (CartItem.quantity c)) c) cart with
  | (Return updated, cart') => (Return (mkReply 200 updated), cart')
  | (Throw e, cart') => (Throw e, cart')
  end.

(** [DELETE /cart/:id] *)
Definition delete_cart (id : Id) (cart : list CartItem.t)
    : outcome (Reply unit) * list CartItem.t :=
  match find (λ c, bool_decide (CartItem.id c = id)) cart with
  | None => (Throw RecordNotFound, cart)
  | Some _ =>
      (Return (mkReply 204 tt),
       List.filter (λ c, negb (bool_decide (CartItem.id c = id))) cart)
  end.

(** [DELETE /cart/user/:userId], the cart emptied after a checkout. *)
Definition delete_cart_user (userId : Id) (cart : list CartItem.t)
    : Reply unit * list CartItem.t :=
  (mkReply 204 tt,
   List.filter (λ c, negb (bool_decide (CartItem.userId c = userId))) cart).

(** *** The favourites *)

Module Favorite.
Record t := mk {
  id : Id;
  userId : Id;
  productId : Id
}.
End Favorite.

Inductive FavoriteBody :=
  | Favorited (favorited : bool)
  | FavoriteError (msg : string).

(** [where: { userId_productId: { userId, productId } }] *)
Definition is_favorite (userId productId : Id) (f : Favorite.t) : bool :=
  bool_decide (Favorite.userId f = userId) &&
  bool_decide (Favorite.productId f = productId).

(** [GET /favorites/user/:userId] *)
Definition get_favorites_user (userId : Id) (favorites : list Favorite.t) : list Id :=
  Favorite.productId <$>
    List.filter (λ f, bool_decide (Favorite.userId f = userId)) favorites.

Section Tables.

(** The decision of the schema on a new row of the cart and of the
    favourites, and the identifier the database gives it. *)
Variable cart_accepts : list CartItem.t → CartItem.t → bool.
Variable favorite_accepts : list Favorite.t → Favorite.t → bool.
Variable new_id : gset Id → Id.

(** [POST /cart]: the quantity sent is added to the row the cart has for
    the user and the product, and a row is inserted when it has none. *)
Definition post_cart (req : CartReq.t) (cart : list CartItem.t)
    : outcome (Reply CartItem.t) * list CartItem.t :=
  match find (in_cart (CartReq.userId req) (CartReq.productId req)) cart with
  | Some existingItem =>
      match cart_update (CartItem.id existingItem)
              (with_quantity (CartItem.quantity existingItem + CartReq.quantity req))
              cart with
      | (Return updated, cart') => (Return (mkReply 200 updated), cart')
      | (Throw e, cart') => (Throw e, cart')
      end
  | None =>
      let newItem :=
        CartItem.mk (new_id (list_to_set (CartItem.id <$> cart)))
          (CartReq.userId req) (CartReq.productId req) (CartReq.name req)
          (CartReq.price req) (CartReq.quantity req) (CartReq.image req) in
      if cart_accepts cart newItem
      then (Return (mkReply 201 newItem), cart ++ [newItem])
      else (Throw ConstraintViolation, cart)
  end.

(** [POST /favorites/toggle] *)
Definition post_favorites_toggle (userId productId : Id) (favorites : list Favorite.t)
    : Reply FavoriteBody * list Favorite.t :=
  match find (is_favorite userId productId) favorites with
  | Some existing =>
      (mkReply 200 (Favorited false),
       List.filter (λ f, negb (bool_decide (Favorite.id f = Favorite.id existing)))
         favorites)
  | None =>
      let row := Favorite.mk (new_id (list_to_set (Favorite.id <$> favorites)))
                   userId productId in
      if favorite_accepts favorites row
      then (mkReply 200 (Favorited true), favorites ++ [row])
      else (mkReply 500 (FavoriteError "Erro ao processar favorito"), favorites)
  end.

End Tables.

(** *** Notions for the cart and the favourites *)

(** The quantity the cart holds of a product for a user. *)
Definition cart_quantity (userId productId : Id) (cart : list CartItem.t) : Z :=
  foldr (λ c n, if in_cart userId productId c then CartItem.quantity c + n else n) 0 cart.

(** Rows have identifiers of their own; the cart has one row at most for
    a user and a product. *)
Definition cart_keys (cart : list CartItem.t) : Prop :=
  NoDup (CartItem.id <$> cart).

Definition cart_merged (cart : list CartItem.t) : Prop :=
  NoDup ((λ c, (CartItem.userId c, CartItem.productId c)) <$> cart).

Definition favorite_keys (favorites : list Favorite.t) : Prop :=
  NoDup (Favorite.id <$> favorites) ∧
  NoDup ((λ f, (Favorite.userId f, Favorite.productId f)) <$> favorites).

(** *** Tables to try them on *)

Definition any_row {A} (table : list A) (row : A) : bool := true.

Definition refuses (db : DB) (w : Insert) : bool := false.

Definition cart0 : list CartItem.t :=
  [ CartItem.mk "c1" "u1" "X" "Camisa" (10 # 1) 2 "u";
    CartItem.mk "c2" "u2" "X" "Camisa" (10 # 1) 1 "u" ].

Definition favorites0 : list Favorite.t :=
  [ Favorite.mk "f1" "u1" "X"; Favorite.mk "f2" "u2" "X" ].

Definition hat : Product.t :=
  Product.mk "Chapeu" "Chapeu de palha" (20 # 1) 4 0 "roupas" "h" ["h"] "[]" (Some "s1").

Definition db1 : DB :=
  mkDB {[ "u1" := ana ]} ∅ {[ "a1" := home "u1" true ]}
    (<[ "Y" := hat ]> {[ "X" := shirt ]}) ∅ [].

Definition edit : ProductReq.t :=
  ProductReq.mk (Some "Camisa nova") None (Some (15 # 1)) (Some 9) None VFalsy (Some []).

Definition in_the_cart (id : Id) (q : Z) : CartItem.t :=
  CartItem.mk id "u1" "X" "Camisa" (10 # 1) q "u".

Definition add_shirt (q : Z) : CartReq.t :=
  CartReq.mk "u1" "X" "Camisa" (10 # 1) q "u".

(** ** Properties *)

Section Properties.

Variable accepts : DB → Insert → bool.
Variable new_id : gset Id → Id.
Hypothesis new_id_fresh : ∀ X : gset Id, new_id X ∉ X.

Lemma sale_0 p : sale 0 p = p.
Proof. destruct p; unfold sale, decrement, increment; simpl. f_equal; lia. Qed.

Lemma sale_sale q1 q2 p : sale q2 (sale q1 p) = sale (q1 + q2) p.
Proof. unfold sale, decrement, increment; simpl. f_equal; lia. Qed.

Lemma stock_sale q p : Product.stock (sale q p) = Product.stock p - q.
Proof. reflexivity. Qed.

Lemma sold_sale q p : Product.sold (sale q p) = Product.sold p + q.
Proof. reflexivity. Qed.

(** The loop over the items, when every item names a product: it runs to
    its end, and each product has lost what the items order of it. *)
Lemma for_of_take_out l : ∀ db,
  (∀ item, item ∈ l → is_Some (products db !! Item.id item)) →
  ∃ db', for_of l take_out_of_stock db = (Return tt, db') ∧
    users db' = users db ∧ shops db' = shops db ∧ addresses db' = addresses db ∧
    orders db' = orders db ∧ orderItems db' = orderItems db ∧
    ∀ pid, products db' !! pid = sale (ordered pid l) <$> products db !! pid.
Proof.
  induction l as [|item l IH]; intros db Hall.
  - exists db. repeat split; try reflexivity.
    intros pid. simpl. destruct (products db !! pid) eqn:E; simpl; [|done].
    by rewrite sale_0.
  - destruct (Hall item) as [p Hp]; [left|].
    destruct (IH (set_products <[Item.id item := sale (Item.quantity item) p]> db))
      as (db' & Hrun & Hu & Hs & Ha & Ho & Hi & Hp').
    { intros it Hit. simpl. destruct (decide (Item.id item = Item.id it)) as [->|Hne].
      - rewrite lookup_insert_eq. eauto.
      - rewrite lookup_insert_ne by done. apply Hall. by right. }
    exists db'. split; [|repeat split; try done].
    + simpl. unfold bind at 1. unfold take_out_of_stock, product_update, bind, get.
      rewrite Hp. simpl. exact Hrun.
    + intros pid. rewrite Hp'. simpl.
      destruct (decide (Item.id item = pid)) as [<-|Hne].
      * rewrite lookup_insert_eq, Hp. simpl. by rewrite sale_sale.
      * by rewrite lookup_insert_ne.
Qed.

(** The loop over the items, when some item names no product: it throws. *)
Lemma for_of_take_out_missing l : ∀ db item,
  item ∈ l → products db !! Item.id item = None →
  ∃ e db', for_of l take_out_of_stock db = (Throw e, db').
Proof.
  induction l as [|x l IH]; intros db item Hin Hnone.
  - by apply elem_of_nil in Hin.
  - simpl. unfold bind at 1. unfold take_out_of_stock, product_update, bind, get.
    destruct (products db !! Item.id x) as [p|] eqn:Hx; simpl.
    + apply elem_of_cons in Hin as [->|Hin]; [congruence|].
      apply (IH _ item Hin). simpl.
      rewrite lookup_insert_ne; [done|]. intros Heq. congruence.
    + eauto.
Qed.

Lemma order_create_run data rows incl db :
  order_create accepts new_id data rows incl db =
  if accepts db (InsOrder data rows) then
    (Return (new_id (dom (orders db)), data,
             if incl then Some (items_of (new_id (dom (orders db)))
                                  (insert_order new_id data rows db)) else None),
     insert_order new_id data rows db)
  else (Throw ConstraintViolation, db).
Proof.
  unfold order_create, bind, get. cbv beta iota.
  destruct (accepts db (InsOrder data rows)); reflexivity.
Qed.

Lemma checkout_run req db :
  checkout accepts new_id req db =
  match OrderReq.items req with
  | None => (Throw TypeError, db)
  | Some l =>
      if accepts db (InsOrder (order_data req) (to_row <$> l)) then
        match for_of l take_out_of_stock
                (insert_order new_id (order_data req) (to_row <$> l) db) with
        | (Return _, db') => (Return (new_id (dom (orders db)), order_data req, None), db')
        | (Throw e, db') => (Throw e, db')
        end
      else (Throw ConstraintViolation, db)
  end.
Proof.
  unfold checkout. destruct (OrderReq.items req) as [l|]; [|reflexivity].
  unfold js_map, js_iter, bind at 1, ret at 1. cbv beta iota.
  unfold bind at 1. rewrite order_create_run.
  destruct (accepts db _); [|reflexivity].
  unfold bind, ret. cbv beta iota.
  destruct (for_of l take_out_of_stock _) as [[[]|e] db']; reflexivity.
Qed.

Lemma post_orders_run req db :
  post_orders accepts new_id req db =
  match checkout accepts new_id req db with
  | (Return result, db') =>
      (mkResponse 201 (BOrder result.1.1 result.1.2 result.2), db')
  | (Throw _, _) => (checkout_error, db)
  end.
Proof.
  unfold post_orders, try_respond, transaction, bind, ret.
  destruct (checkout accepts new_id req db) as [[result|e] db']; reflexivity.
Qed.

(** What [POST /orders] does, case by case. *)
Lemma post_orders_cases req db :
  let oid := new_id (dom (orders db)) in
  let r := post_orders accepts new_id req db in
  (∃ l, OrderReq.items req = Some l ∧
        accepts db (InsOrder (order_data req) (to_row <$> l)) = true ∧
        (∀ item, item ∈ l → is_Some (products db !! Item.id item)) ∧
        r.1 = mkResponse 201 (BOrder oid (order_data req) None) ∧
        users r.2 = users db ∧ shops r.2 = shops db ∧ addresses r.2 = addresses db ∧
        orders r.2 = <[oid := order_data req]> (orders db) ∧
        orderItems r.2 =
          orderItems db ++ create_items new_id (item_ids db) oid (to_row <$> l) ∧
        ∀ pid, products r.2 !! pid = sale (ordered pid l) <$> products db !! pid)
  ∨ (r = (checkout_error, db) ∧
     (OrderReq.items req = None ∨
      ∃ l, OrderReq.items req = Some l ∧
        (accepts db (InsOrder (order_data req) (to_row <$> l)) = false ∨
         ∃ item, item ∈ l ∧ products db !! Item.id item = None))).
Proof.
  intros oid r. subst r. rewrite post_orders_run, checkout_run.
  destruct (OrderReq.items req) as [l|] eqn:Hitems; [|right; eauto].
  destruct (accepts db (InsOrder (order_data req) (to_row <$> l))) eqn:Hacc;
    [|right; split; [done|right; eauto]].
  set (db1 := insert_order new_id (order_data req) (to_row <$> l) db).
  destruct (decide (Forall (λ item, is_Some (products db !! Item.id item)) l))
    as [Hall|Hnot].
  - rewrite Forall_forall in Hall.
    destruct (for_of_take_out l db1) as (db' & Hrun & Hu & Hs & Ha & Ho & Hi & Hp).
    { intros item Hin. apply Hall, Hin. }
    rewrite Hrun. left. exists l. simpl. repeat split; try done.
  - apply not_Forall_Exists in Hnot; [|apply _].
    apply Exists_exists in Hnot as (item & Hin & Hnone).
    assert (products db !! Item.id item = None) as Hnone'.
    { apply eq_None_not_Some, Hnone. }
    destruct (for_of_take_out_missing l db1 item Hin Hnone') as (e & db' & Hrun).
    rewrite Hrun. right. split; [done|]. right. exists l. eauto.
Qed.

Lemma post_orders_failure req db :
  status (post_orders accepts new_id req db).1 ≠ 201%nat →
  post_orders accepts new_id req db = (checkout_error, db).
Proof.
  intros Hst. destruct (post_orders_cases req db) as [(l & _ & _ & _ & Hr & _)|[Hr _]].
  - rewrite Hr in Hst. by destruct Hst.
  - exact Hr.
Qed.

(** C1. [POST /orders] is all or nothing: whenever it does not answer 201,
    and in particular whenever a line item names a product that is not in
    the Product table, it answers 500 and the database is the one it
    started from: no order, no line item, no change of [stock] or [sold]. *)
Theorem post_orders_atomic req db :
  (status (post_orders accepts new_id req db).1 ≠ 201%nat →
   (post_orders accepts new_id req db).2 = db) ∧
  (∀ l item, OrderReq.items req = Some l → item ∈ l →
     products db !! Item.id item = None →
     status (post_orders accepts new_id req db).1 = 500%nat ∧
     (post_orders accepts new_id req db).2 = db).
Proof.
  split.
  - intros Hst. by rewrite (post_orders_failure _ _ Hst).
  - intros l item Hl Hin Hnone.
    destruct (post_orders_cases req db) as [(l' & Hl' & _ & Hall & _)|[Hr _]].
    + assert (l' = l) as -> by congruence.
      destruct (Hall item Hin) as [p Hp]. congruence.
    + by rewrite Hr.
Qed.

(** What a successful [POST /orders] leaves in the Product table. *)
Lemma post_orders_products req db l pid :
  status (post_orders accepts new_id req db).1 = 201%nat →
  OrderReq.items req = Some l →
  products (post_orders accepts new_id req db).2 !! pid =
    sale (ordered pid l) <$> products db !! pid.
Proof.
  intros Hst Hl.
  destruct (post_orders_cases req db) as [(l' & Hl' & _ & _ & _ & _ & _ & _ & _ & _ & Hp)|[Hr _]].
  - assert (l' = l) as -> by congruence. apply Hp.
  - rewrite Hr in Hst. discriminate.
Qed.

Lemma ordered_app pid l1 l2 : ordered pid (l1 ++ l2) = ordered pid l1 + ordered pid l2.
Proof.
  induction l1 as [|x l1 IH]; simpl; [lia|]. destruct (decide _); lia.
Qed.

Lemma ordered_others pid l : (∀ x, x ∈ l → Item.id x ≠ pid) → ordered pid l = 0.
Proof.
  induction l as [|x l IH]; intros H; simpl; [done|].
  destruct (decide _) as [Heq|_].
  - exfalso. by apply (H x); [left|].
  - apply IH. intros y Hy. apply H. by right.
Qed.

(** C2, as amended.  After a successful [POST /orders] every product has
    lost from [stock], and gained in [sold], the total quantity of the line
    items that name it; so [sold] grows by what [stock] loses.  When one
    line item alone names the product, that total is its quantity. *)
Theorem post_orders_stock_sold req db l pid p :
  status (post_orders accepts new_id req db).1 = 201%nat →
  OrderReq.items req = Some l →
  products db !! pid = Some p →
  ∃ p', products (post_orders accepts new_id req db).2 !! pid = Some p' ∧
    Product.stock p' = Product.stock p - ordered pid l ∧
    Product.sold p' = Product.sold p + ordered pid l ∧
    Product.sold p' - Product.sold p = Product.stock p - Product.stock p' ∧
    (∀ l1 item l2, l = l1 ++ item :: l2 → Item.id item = pid →
       (∀ x, x ∈ l1 ++ l2 → Item.id x ≠ pid) →
       Product.stock p' = Product.stock p - Item.quantity item ∧
       Product.sold p' = Product.sold p + Item.quantity item).
Proof.
  intros Hst Hl Hp. exists (sale (ordered pid l) p).
  rewrite (post_orders_products _ _ _ _ Hst Hl), Hp.
  rewrite stock_sale, sold_sale.
  split; [done|]. split; [done|]. split; [done|]. split; [lia|].
  intros l1 item l2 -> Hid Hothers.
  rewrite ordered_app. simpl. rewrite decide_True by done.
  rewrite (ordered_others pid l1), (ordered_others pid l2); [lia| |];
    intros x Hx; apply Hothers, elem_of_app; auto.
Qed.

(** *** The line items of the new order *)

Lemma create_items_orderId rows : ∀ used oid i,
  i ∈ create_items new_id used oid rows → OrderItem.orderId i = oid.
Proof.
  induction rows as [|r rows IH]; intros used oid i Hin; simpl in Hin.
  - by apply elem_of_nil in Hin.
  - apply elem_of_cons in Hin as [->|Hin]; [done|]. by apply IH in Hin.
Qed.

Lemma create_items_snapshot rows : ∀ used oid,
  snapshot <$> create_items new_id used oid rows = rows.
Proof.
  induction rows as [|r rows IH]; intros used oid; simpl; [done|].
  rewrite IH. by destruct r.
Qed.

Lemma create_items_length rows used oid :
  length (create_items new_id used oid rows) = length rows.
Proof. by rewrite <- (create_items_snapshot rows used oid) at 2; rewrite length_fmap. Qed.

Lemma filter_orderId_none (oid : Id) (l : list OrderItem.t) :
  (∀ i, i ∈ l → OrderItem.orderId i ≠ oid) →
  filter (λ i, OrderItem.orderId i = oid) l = [].
Proof.
  induction l as [|x l IH]; intros H; [done|].
  rewrite filter_cons_False; [|apply H; by left].
  apply IH. intros i Hi. apply H. by right.
Qed.

Lemma filter_orderId_all (oid : Id) (l : list OrderItem.t) :
  (∀ i, i ∈ l → OrderItem.orderId i = oid) →
  filter (λ i, OrderItem.orderId i = oid) l = l.
Proof.
  induction l as [|x l IH]; intros H; [done|].
  rewrite filter_cons_True; [|apply H; by left].
  f_equal. apply IH. intros i Hi. apply H. by right.
Qed.

(** In a database whose line items all belong to orders, the line items
    of a new order are the ones inserted with it. *)
Lemma items_of_new_order db oid rows :
  items_owned db → oid ∉ dom (orders db) →
  filter (λ i, OrderItem.orderId i = oid)
    (orderItems db ++ create_items new_id (item_ids db) oid rows) =
  create_items new_id (item_ids db) oid rows.
Proof.
  intros Howned Hfresh. rewrite filter_app, filter_orderId_none, filter_orderId_all.
  - done.
  - intros i. apply create_items_orderId.
  - intros i Hi Heq. apply Hfresh. rewrite <- Heq. by apply Howned.
Qed.

(** Every line item belongs to an order before a checkout; so it is
    after it. *)
Lemma post_orders_items_owned req db :
  items_owned db → items_owned (post_orders accepts new_id req db).2.
Proof.
  intros Howned.
  destruct (post_orders_cases req db)
    as [(l & _ & _ & _ & _ & _ & _ & _ & Ho & Hi & _)|[Hr _]]; [|by rewrite Hr].
  intros i. rewrite Hi, Ho, dom_insert_L, elem_of_app. intros [Hold|Hnew].
  - apply elem_of_union_r. by apply Howned.
  - apply elem_of_union_l, elem_of_singleton. by apply create_items_orderId in Hnew.
Qed.

(** *** What a successful checkout leaves behind *)

Lemma post_orders_success req db :
  status (post_orders accepts new_id req db).1 = 201%nat →
  let oid := new_id (dom (orders db)) in
  let r := post_orders accepts new_id req db in
  ∃ l, OrderReq.items req = Some l ∧
    accepts db (InsOrder (order_data req) (to_row <$> l)) = true ∧
    r.1 = mkResponse 201 (BOrder oid (order_data req) None) ∧
    users r.2 = users db ∧ shops r.2 = shops db ∧ addresses r.2 = addresses db ∧
    orders r.2 = <[oid := order_data req]> (orders db) ∧
    orderItems r.2 =
      orderItems db ++ create_items new_id (item_ids db) oid (to_row <$> l) ∧
    ∀ pid, products r.2 !! pid = sale (ordered pid l) <$> products db !! pid.
Proof.
  intros Hst oid r.
  destruct (post_orders_cases req db)
    as [(l & Hl & Hacc & _ & Hr & Hu & Hs & Ha & Ho & Hi & Hp)|[Hr _]].
  - exists l. repeat split; done.
  - rewrite Hr in Hst. discriminate.
Qed.

Lemma post_orders_items_of req db l :
  status (post_orders accepts new_id req db).1 = 201%nat →
  OrderReq.items req = Some l →
  items_owned db →
  snapshot <$> items_of (new_id (dom (orders db))) (post_orders accepts new_id req db).2
    = to_row <$> l.
Proof.
  intros Hst Hl Howned.
  destruct (post_orders_success req db Hst) as (l' & Hl' & _ & _ & _ & _ & _ & _ & Hi & _).
  assert (l' = l) as -> by congruence.
  unfold items_of. rewrite Hi, items_of_new_order; [|done|apply new_id_fresh].
  apply create_items_snapshot.
Qed.

(** C3, as amended.  A request without [items] is answered 500 and leaves
    the database as it was.  An order placed with a list of [n] items has
    [n] line items, inserted with it; with a list that is not empty it has
    at least one. *)
Theorem post_orders_items_required req db :
  (OrderReq.items req = None →
   post_orders accepts new_id req db = (checkout_error, db)) ∧
  (∀ l, status (post_orders accepts new_id req db).1 = 201%nat →
     OrderReq.items req = Some l → items_owned db →
     ∃ oid o, body (post_orders accepts new_id req db).1 = BOrder oid o None ∧
       orders db !! oid = None ∧
       orders (post_orders accepts new_id req db).2 !! oid = Some o ∧
       length (items_of oid (post_orders accepts new_id req db).2) = length l ∧
       (l ≠ [] → items_of oid (post_orders accepts new_id req db).2 ≠ [])).
Proof.
  split.
  - intros Hnone.
    destruct (post_orders_cases req db) as [(l & Hl & _)|[Hr _]]; [congruence|done].
  - intros l Hst Hl Howned.
    pose proof (post_orders_items_of req db l Hst Hl Howned) as Hsnap.
    destruct (post_orders_success req db Hst) as (l' & _ & _ & Hr & _ & _ & _ & Ho & _).
    exists (new_id (dom (orders db))), (order_data req).
    assert (length (items_of (new_id (dom (orders db)))
                      (post_orders accepts new_id req db).2) = length l) as Hlen.
    { by rewrite <- (length_fmap snapshot), Hsnap, length_fmap. }
    split; [by rewrite Hr|]. split; [apply not_elem_of_dom, new_id_fresh|].
    split; [by rewrite Ho, lookup_insert_eq|]. split; [done|].
    intros Hne Hnil. rewrite Hnil in Hlen. destruct l; [done|discriminate].
Qed.

(** *** Later changes of a product *)

Lemma keeps_items_ret {A} (a : A) : keeps_items (ret a).
Proof. by intros db. Qed.

Lemma keeps_items_throw {A} e : keeps_items (@throw A e).
Proof. by intros db. Qed.

Lemma keeps_items_bind {A B} (m : Prisma A) (k : A → Prisma B) :
  keeps_items m → (∀ a, keeps_items (k a)) → keeps_items (bind m k).
Proof.
  intros Hm Hk db. unfold bind. specialize (Hm db).
  destruct (m db) as [[a|e] db1]; simpl in *; [|done].
  by rewrite (Hk a db1).
Qed.

Lemma keeps_items_product_update id data : keeps_items (product_update id data).
Proof.
  intros db. unfold product_update, bind, get. cbv beta iota.
  by destruct (products db !! id).
Qed.

Lemma keeps_items_try_respond m caught db :
  keeps_items m → orderItems (try_respond m caught db).2 = orderItems db.
Proof.
  intros Hm. unfold try_respond. specialize (Hm db).
  by destruct (m db) as [[r|e] db1].
Qed.

Create HintDb frame.
#[local] Hint Resolve keeps_items_ret keeps_items_throw keeps_items_product_update : frame.

Ltac keeps_items :=
  repeat first
    [ solve [auto with frame]
    | match goal with |- keeps_items (match ?x with _ => _ end) => destruct x end
    | apply keeps_items_bind; [|intros ?] ].

Lemma put_products_orderItems id req db :
  orderItems (put_products id req db).2 = orderItems db.
Proof.
  apply keeps_items_try_respond. unfold js_iter. keeps_items.
Qed.

Lemma post_orders_keeps_items req db oid :
  oid ∈ dom (orders db) →
  items_of oid (post_orders accepts new_id req db).2 = items_of oid db.
Proof.
  intros Hin.
  destruct (post_orders_cases req db)
    as [(l & _ & _ & _ & _ & _ & _ & _ & _ & Hi & _)|[Hr _]]; [|by rewrite Hr].
  unfold items_of. rewrite Hi, filter_app, (filter_orderId_none oid (create_items _ _ _ _)).
  - by rewrite app_nil_r.
  - intros i Hi' Heq. apply create_items_orderId in Hi'.
    apply (new_id_fresh (dom (orders db))). congruence.
Qed.

(** C5.  After a successful [POST /orders] the new order has one line item
    for each item of the request, in the order of the request; each holds
    the price, name and image the request gave, whatever the Product table
    says; and neither a later edit of a product nor a later checkout
    changes the line items of the order. *)
Theorem post_orders_snapshot req db l :
  status (post_orders accepts new_id req db).1 = 201%nat →
  OrderReq.items req = Some l →
  items_owned db →
  let oid := new_id (dom (orders db)) in
  let db' := (post_orders accepts new_id req db).2 in
  length (items_of oid db') = length l ∧
  (∀ k item, l !! k = Some item →
     ∃ i, items_of oid db' !! k = Some i ∧
          OrderItem.price i = Item.price item ∧
          OrderItem.name i = Item.name item ∧
          OrderItem.image i = Item.image item) ∧
  (∀ id edit, items_of oid (put_products id edit db').2 = items_of oid db') ∧
  (∀ req', items_of oid (post_orders accepts new_id req' db').2 = items_of oid db').
Proof.
  intros Hst Hl Howned oid db'.
  pose proof (post_orders_items_of req db l Hst Hl Howned) as Hsnap.
  fold oid db' in Hsnap.
  split; [by rewrite <- (length_fmap snapshot), Hsnap, length_fmap|].
  split; [|split].
  - intros k item Hk.
    assert ((snapshot <$> items_of oid db') !! k = Some (to_row item)) as Hrow.
    { by rewrite Hsnap, list_lookup_fmap, Hk. }
    rewrite list_lookup_fmap in Hrow.
    destruct (items_of oid db' !! k) as [i|]; [|done].
    exists i. split; [done|]. simpl in Hrow.
    injection Hrow as _ Hname _ Hprice Himage. done.
  - intros id edit. unfold items_of. by rewrite put_products_orderItems.
  - intros req'. apply post_orders_keeps_items.
    destruct (post_orders_success req db Hst) as (_ & _ & _ & _ & _ & _ & _ & Ho & _).
    subst db'. rewrite Ho, dom_insert_L. set_solver.
Qed.

(** *** Submitting a request twice *)

Lemma post_orders_dom_products req db :
  dom (products (post_orders accepts new_id req db).2) = dom (products db).
Proof.
  destruct (post_orders_cases req db)
    as [(l & _ & _ & _ & _ & _ & _ & _ & _ & _ & Hp)|[Hr _]]; [|by rewrite Hr].
  apply set_eq. intros pid. rewrite !elem_of_dom, Hp. apply fmap_is_Some.
Qed.


(** *** Checkouts one after the other

    Whatever the order in which checkouts that all succeed are run, a
    product ends with its stock less everything ordered of it.  (That
    checkouts running at the same time end as some such sequence does is
    the isolation of the database, and is not stated here.) *)
Lemma one_by_one_products reqs : ∀ db,
  (∀ d d' o rows, users d' = users d → addresses d' = addresses d →
     dom (products d') = dom (products d) →
     accepts d' (InsOrder o rows) = accepts d (InsOrder o rows)) →
  (∀ req, req ∈ reqs →
     status (post_orders accepts new_id req db).1 = 201%nat) →
  ∀ pid, products (one_by_one accepts new_id reqs db) !! pid =
         sale (ordered_in_all pid reqs) <$> products db !! pid.
Proof.
  induction reqs as [|req reqs IH]; intros db Hstable Hall pid; simpl.
  - destruct (products db !! pid); simpl; [by rewrite sale_0|done].
  - destruct (post_orders_success req db) as (l & Hl & _ & _ & Hu & _ & Ha & _ & _ & Hp);
      [apply Hall; by left|].
    pose proof (post_orders_dom_products req db) as Hdom.
    rewrite IH; [| done |].
    + rewrite Hp, Hl. simpl. destruct (products db !! pid); simpl; [|done].
      by rewrite sale_sale.
    + intros req' Hin.
      assert (status (post_orders accepts new_id req' db).1 = 201%nat) as Hst'
        by (apply Hall; by right).
      destruct (post_orders_cases req' db)
        as [(l' & Hl' & Hacc' & Hall' & _)|[Hr _]]; [|rewrite Hr in Hst'; discriminate].
      destruct (post_orders_cases req' (post_orders accepts new_id req db).2)
        as [(l2 & _ & _ & _ & Hr2 & _)|[_ [Hnone|(l2 & Hl2 & [Hrej|(item & Hin' & Hmiss)])]]].
      * by rewrite Hr2.
      * congruence.
      * assert (l2 = l') as -> by congruence.
        rewrite (Hstable db) in Hrej by done. congruence.
      * assert (l2 = l') as -> by congruence.
        destruct (Hall' item Hin') as [p Hp0]. rewrite Hp, Hp0 in Hmiss. discriminate.
Qed.

Lemma ordered_in_all_perm pid reqs reqs' :
  reqs ≡ₚ reqs' → ordered_in_all pid reqs = ordered_in_all pid reqs'.
Proof. induction 1; simpl; lia. Qed.

(** *** The mobile checkout *)

Lemma post_orders_mobile_run req db :
  post_orders_mobile accepts new_id req db =
  match OrderReq.items req with
  | None => (mobile_error, db)
  | Some l =>
      if accepts db (InsOrder (order_data req) (to_row <$> l)) then
        let db' := insert_order new_id (order_data req) (to_row <$> l) db in
        (mkResponse 201 (BOrder (new_id (dom (orders db))) (order_data req)
                           (Some (items_of (new_id (dom (orders db))) db'))), db')
      else (mobile_error, db)
  end.
Proof.
  unfold post_orders_mobile, try_respond.
  destruct (OrderReq.items req) as [l|]; [|reflexivity].
  unfold js_map, bind at 1, ret at 1. cbv beta iota.
  unfold bind. rewrite order_create_run.
  destruct (accepts db _); reflexivity.
Qed.


(** *** Primary addresses *)

Lemma one_primary_fewer db db' :
  one_primary db → (∀ u i, primary_of db' u i → primary_of db u i) → one_primary db'.
Proof. intros H Hsub u i j Hi Hj. apply (H u); by apply Hsub. Qed.

Lemma primary_of_clear uo db v i :
  primary_of (address_clear_primary uo db).2 v i ↔
  primary_of db v i ∧ match uo with Some u => v ≠ u | None => False end.
Proof.
  unfold primary_of, address_clear_primary, modify. simpl. rewrite lookup_fmap.
  destruct (addresses db !! i) as [a|] eqn:Ha; simpl.
  - split.
    + intros (a' & Ha' & Hu & Hp). injection Ha' as <-.
      destruct (selects uo a) eqn:Hsel; [discriminate Hp|].
      split; [by exists a|]. destruct uo as [u|]; [|discriminate Hsel].
      apply bool_decide_eq_false in Hsel. congruence.
    + intros [(a' & Ha' & Hu & Hp) Hne]. injection Ha' as <-.
      exists a. split; [|done].
      destruct uo as [u|]; [|done]. unfold selects.
      rewrite bool_decide_eq_false_2; [done|congruence].
  - split; [intros (a' & Ha' & _); discriminate|intros [(a' & Ha' & _) _]; discriminate].
Qed.

Lemma primary_of_insert db id a u j :
  primary_of (set_addresses <[id := a]> db) u j ↔
  (j = id ∧ Address.userId a = u ∧ Address.isPrimary a = true) ∨
  (j ≠ id ∧ primary_of db u j).
Proof.
  unfold primary_of. simpl. destruct (decide (j = id)) as [->|Hne].
  - rewrite lookup_insert_eq. split.
    + intros (a' & Ha' & Hu & Hp). injection Ha' as <-. by left.
    + intros [(_ & Hu & Hp)|[Hne _]]; [by exists a|done].
  - rewrite lookup_insert_ne by done. split; [by right|].
    intros [[Heq _]|[_ H]]; [done|exact H].
Qed.

Lemma one_primary_insert db id a :
  one_primary db →
  (Address.isPrimary a = true → ∀ j, j ≠ id → ¬ primary_of db (Address.userId a) j) →
  one_primary (set_addresses <[id := a]> db).
Proof.
  intros H Hno u i j Hi Hj.
  apply primary_of_insert in Hi as [(-> & Hu & Hp)|[Hine Hi]];
    apply primary_of_insert in Hj as [(-> & Hu' & Hp')|[Hjne Hj]].
  - done.
  - exfalso. subst u. by apply (Hno Hp j Hjne).
  - exfalso. subst u. by apply (Hno Hp' i Hine).
  - by apply (H u).
Qed.

Lemma clear_if_primary_run req db :
  ∃ db1, clear_if_primary req db = (Return tt, db1) ∧
    users db1 = users db ∧
    (∀ u i, primary_of db1 u i → primary_of db u i) ∧
    (AddressReq.isPrimary req ≠ Some true → db1 = db) ∧
    (AddressReq.isPrimary req = Some true →
       (∀ id, is_Some (addresses db1 !! id) ↔ is_Some (addresses db !! id)) ∧
       (∀ id a, addresses db !! id = Some a →
          ∃ a1, addresses db1 !! id = Some a1 ∧ Address.userId a1 = Address.userId a) ∧
       ∀ u i, primary_of db1 u i ↔
         primary_of db u i ∧
         match AddressReq.userId req with Some v => u ≠ v | None => False end).
Proof.
  unfold clear_if_primary.
  destruct (AddressReq.isPrimary req) as [[|]|]; simpl;
    [|exists db; repeat split; done..].
  exists (address_clear_primary (AddressReq.userId req) db).2.
  split; [done|]. split; [done|].
  split; [intros u i Hp; by apply primary_of_clear in Hp as [Hp _]|].
  split; [done|]. intros _. split; [|split].
  - intros id. simpl. rewrite lookup_fmap. apply fmap_is_Some.
  - intros id a Ha. simpl. rewrite lookup_fmap, Ha. simpl.
    eexists. split; [done|]. by destruct (selects _ a).
  - apply primary_of_clear.
Qed.

Lemma post_addresses_run req db :
  post_addresses accepts new_id req db =
  match clear_if_primary req db with
  | (Return _, db1) =>
      match AddressReq.userId req with
      | None => (post_addresses_error, db1)
      | Some u =>
          let a := new_address u req (js_truthy (AddressReq.isPrimary req)) in
          if accepts db1 (InsAddress a) then
            (mkResponse 201 (BAddress (new_id (dom (addresses db1))) a),
             set_addresses <[new_id (dom (addresses db1)) := a]> db1)
          else (post_addresses_error, db1)
      end
  | (Throw _, db1) => (post_addresses_error, db1)
  end.
Proof.
  unfold post_addresses, try_respond, bind at 1.
  destruct (clear_if_primary req db) as [[[]|e] db1]; [|reflexivity].
  unfold address_create. destruct (AddressReq.userId req) as [u|]; [|reflexivity].
  unfold bind, get, modify, ret, throw. cbv beta iota zeta.
  destruct (accepts db1 _); reflexivity.
Qed.

(** [POST /addresses] keeps every user at one primary address at most. *)
Lemma post_addresses_one_primary req db :
  one_primary db →
  one_primary (post_addresses accepts new_id req db).2 ∧
  (status (post_addresses accepts new_id req db).1 = 201%nat →
   AddressReq.isPrimary req = Some true →
   ∃ id a, body (post_addresses accepts new_id req db).1 = BAddress id a ∧
     AddressReq.userId req = Some (Address.userId a) ∧
     addresses db !! id = None ∧
     addresses (post_addresses accepts new_id req db).2 !! id = Some a ∧
     ∀ j, primary_of (post_addresses accepts new_id req db).2 (Address.userId a) j ↔ j = id) ∧
  (AddressReq.isPrimary req ≠ Some true →
   ∀ u j, primary_of (post_addresses accepts new_id req db).2 u j → primary_of db u j).
Proof.
  intros Hone.
  destruct (clear_if_primary_run req db) as (db1 & Hrun & _ & Hsub & Hsame & Hclear).
  pose proof (one_primary_fewer db db1 Hone Hsub) as Hone1.
  rewrite post_addresses_run, Hrun.
  destruct (AddressReq.userId req) as [u|] eqn:Hu;
    [|split; [done|split; [discriminate|]]; intros _ v j; apply Hsub].
  cbv zeta.
  destruct (accepts db1 _);
    [|split; [done|split; [discriminate|]]; intros _ v j; apply Hsub].
  cbn [fst snd status body].
  pose proof (new_id_fresh (dom (addresses db1))) as Hfresh.
  apply not_elem_of_dom in Hfresh.
  set (id := new_id (dom (addresses db1))) in *.
  assert (∀ v j, j = id → ¬ primary_of db1 v j) as Hnot_id.
  { intros v j -> (a & Ha & _). congruence. }
  split; [|split].
  - apply one_primary_insert; [done|]. simpl. intros Hp j Hj Hprim.
    destruct (AddressReq.isPrimary req) as [[|]|]; try discriminate Hp.
    destruct Hclear as (_ & _ & Hclear); [done|].
    apply Hclear in Hprim as [_ Hne]. done.
  - intros _ Hp. destruct Hclear as (Hdom & _ & Hclear); [done|].
    exists id, (new_address u req (js_truthy (AddressReq.isPrimary req))).
    split; [done|]. split; [done|].
    split; [apply eq_None_not_Some; rewrite <- Hdom; by rewrite Hfresh; intros [? ?]|].
    split; [apply lookup_insert_eq|].
    intros j. rewrite primary_of_insert. simpl. rewrite Hp. simpl. split.
    + intros [(-> & _)|[_ Hprim]]; [done|]. apply Hclear in Hprim as [_ Hne]. done.
    + intros ->. by left.
  - intros Hp v j. rewrite primary_of_insert. simpl.
    intros [(_ & _ & Htrue)|[_ Hprim]]; [|by apply Hsub].
    destruct (AddressReq.isPrimary req) as [[|]|]; done.
Qed.

Lemma put_addresses_run id req db :
  put_addresses id req db =
  match clear_if_primary req db with
  | (Return _, db1) =>
      match addresses db1 !! id with
      | None => (put_addresses_error, db1)
      | Some a =>
          (mkResponse 200 (BAddress id (edited_address req a)),
           set_addresses <[id := edited_address req a]> db1)
      end
  | (Throw _, db1) => (put_addresses_error, db1)
  end.
Proof.
  unfold put_addresses, try_respond, bind at 1.
  destruct (clear_if_primary req db) as [[[]|e] db1]; [|reflexivity].
  unfold address_update, bind, get. cbv beta iota.
  destruct (addresses db1 !! id); reflexivity.
Qed.

(** [PUT /addresses/:id] keeps every user at one primary address at most,
    when a request that makes the address primary carries the identifier
    of the user the address belongs to. *)
Lemma put_addresses_one_primary id req db :
  one_primary db →
  (AddressReq.isPrimary req = Some true →
   ∀ a, addresses db !! id = Some a → AddressReq.userId req = Some (Address.userId a)) →
  one_primary (put_addresses id req db).2 ∧
  (status (put_addresses id req db).1 = 200%nat →
   AddressReq.isPrimary req = Some true →
   ∃ a, addresses db !! id = Some a ∧
     ∀ j, primary_of (put_addresses id req db).2 (Address.userId a) j ↔ j = id) ∧
  (AddressReq.isPrimary req ≠ Some true →
   ∀ u j, primary_of (put_addresses id req db).2 u j → primary_of db u j).
Proof.
  intros Hone Howner.
  destruct (clear_if_primary_run req db) as (db1 & Hrun & _ & Hsub & Hsame & Hclear).
  pose proof (one_primary_fewer db db1 Hone Hsub) as Hone1.
  rewrite put_addresses_run, Hrun.
  destruct (addresses db1 !! id) as [a1|] eqn:Ha1;
    [|split; [done|split; [discriminate|]]; intros _ v j; apply Hsub].
  cbn [fst snd status body].
  assert (AddressReq.isPrimary req = Some true →
          ∃ a, addresses db !! id = Some a ∧ Address.userId a1 = Address.userId a ∧
               ∀ j, ¬ primary_of db1 (Address.userId a) j) as Hcleared.
  { intros Hp. destruct (Hclear Hp) as (Hdom & Hsame_user & Hprim).
    destruct (proj1 (Hdom id)) as [a Ha]; [by rewrite Ha1|].
    destruct (Hsame_user id a Ha) as (a1' & Ha1' & Hu).
    assert (a1' = a1) as -> by congruence.
    exists a. split; [done|]. split; [done|].
    intros j Hj. apply Hprim in Hj as [_ Hne].
    rewrite (Howner Hp a Ha) in Hne. done. }
  split; [|split].
  - apply one_primary_insert; [done|]. simpl. intros Hp j Hj Hprim.
    destruct (AddressReq.isPrimary req) as [[|]|] eqn:Hreq; simpl in Hp.
    + destruct Hcleared as (a & _ & Hu & Hnone); [done|].
      rewrite Hu in Hprim. by apply (Hnone j).
    + discriminate.
    + rewrite Hsame in Ha1, Hprim by done. apply Hj. symmetry.
      apply (Hone (Address.userId a1)); [by exists a1|done].
  - intros _ Hp. destruct (Hcleared Hp) as (a & Ha & Hu & Hnone).
    exists a. split; [done|].
    intros j. rewrite primary_of_insert. simpl. rewrite Hp. simpl. split.
    + intros [(-> & _)|[_ Hprim]]; [done|]. by apply Hnone in Hprim.
    + intros ->. by left.
  - intros Hp v j. rewrite Hsame in * by done. rewrite primary_of_insert. simpl.
    intros [(-> & Hu & Htrue)|[_ Hprim]]; [|done].
    destruct (AddressReq.isPrimary req) as [[|]|]; try done.
    by exists a1.
Qed.

Lemma delete_addresses_one_primary id db :
  one_primary db → one_primary (delete_addresses id db).2.
Proof.
  intros Hone. apply (one_primary_fewer db); [done|].
  unfold delete_addresses, try_respond, address_delete, bind, get. cbv beta iota.
  destruct (addresses db !! id) as [a|]; [|done].
  intros u j (b & Hb & Hu & Hp). simpl in Hb.
  apply lookup_delete_Some in Hb as [_ Hb]. by exists b.
Qed.

Lemma user_create_run u a s db :
  user_create accepts new_id u a s db =
  let uid := new_id (dom (users db)) in
  if accepts db (InsUser u (a uid) ((λ f, f uid) <$> s)) then
    let db1 := set_addresses <[new_id (dom (addresses db)) := a uid]>
                 (set_users <[uid := u]> db) in
    match s with
    | Some f =>
        (Return (uid, u, Some (new_id (dom (shops db)), f uid)),
         set_shops <[new_id (dom (shops db)) := f uid]> db1)
    | None => (Return (uid, u, None), db1)
    end
  else (Throw ConstraintViolation, db).
Proof.
  unfold user_create, bind, get, modify, ret, throw. cbv beta iota zeta.
  destruct (accepts db _); [|reflexivity]. destruct s; reflexivity.
Qed.

(** What [POST /auth/register] does, case by case. *)
Lemma post_auth_register_cases req db :
  let r := post_auth_register accepts new_id req db in
  (status r.1 = 400%nat ∧ r.2 = db) ∨
  (∃ name userData addressData,
     status r.1 = 201%nat ∧
     users r.2 = <[new_id (dom (users db)) := new_user name userData]> (users db) ∧
     addresses r.2 =
       <[new_id (dom (addresses db)) :=
           first_address addressData (new_id (dom (users db)))]> (addresses db) ∧
     products r.2 = products db ∧ orders r.2 = orders db ∧
     orderItems r.2 = orderItems db).
Proof.
  intros r. subst r.
  remember (post_auth_register accepts new_id req db) as r eqn:Hr.
  unfold post_auth_register, reply in Hr.
  destruct (RegisterReq.userData req) as [userData|]; [|subst r; by left].
  destruct (UserData.name userData) as [name|]; [|subst r; by left].
  destruct (decide (name = "")); [subst r; by left|].
  unfold try_respond, js_get in Hr.
  destruct (RegisterReq.addressData req) as [addressData|]; [|subst r; by left].
  unfold bind, ret in Hr. rewrite user_create_run in Hr. cbv zeta in Hr.
  destruct (accepts db _); [|subst r; by left].
  right. exists name, userData, addressData.
  destruct (RegisterReq.shopData req); subst r; done.
Qed.

(** [POST /auth/register] gives the new user one address, a primary one. *)
Lemma post_auth_register_one_primary req db :
  one_primary db → addresses_owned db →
  one_primary (post_auth_register accepts new_id req db).2 ∧
  (status (post_auth_register accepts new_id req db).1 = 201%nat →
   ∃ uid aid a,
     users db !! uid = None ∧
     is_Some (users (post_auth_register accepts new_id req db).2 !! uid) ∧
     addresses db !! aid = None ∧
     addresses (post_auth_register accepts new_id req db).2 = <[aid := a]> (addresses db) ∧
     Address.userId a = uid ∧ Address.isPrimary a = true ∧
     ∀ j, primary_of (post_auth_register accepts new_id req db).2 uid j ↔ j = aid).
Proof.
  intros Hone Howned.
  destruct (post_auth_register_cases req db)
    as [[Hst Hdb]|(name & userData & addressData & Hst & Hu & Ha & _)].
  { rewrite Hdb. split; [done|]. rewrite Hst. discriminate. }
  set (uid := new_id (dom (users db))) in *.
  set (aid := new_id (dom (addresses db))) in *.
  set (a := first_address addressData uid) in *.
  assert (users db !! uid = None) as Huid by apply not_elem_of_dom, new_id_fresh.
  assert (addresses db !! aid = None) as Haid by apply not_elem_of_dom, new_id_fresh.
  assert (∀ j, ¬ primary_of db uid j) as Hnone.
  { intros j (b & Hb & Hbu & _). apply Howned in Hb.
    rewrite Hbu in Hb. apply elem_of_dom in Hb as [? ?]. congruence. }
  assert (∀ u j, primary_of (post_auth_register accepts new_id req db).2 u j ↔
                 primary_of (set_addresses <[aid := a]> db) u j) as Hext.
  { intros u j. unfold primary_of. simpl. by rewrite Ha. }
  split.
  - intros u i j Hi%Hext Hj%Hext. revert u i j Hi Hj.
    apply one_primary_insert; [done|]. intros _ j _. apply Hnone.
  - intros _. exists uid, aid, a.
    split; [done|]. split; [by rewrite Hu, lookup_insert_eq|].
    split; [done|]. split; [done|]. split; [done|]. split; [done|].
    intros j. rewrite Hext, primary_of_insert. split.
    + intros [(-> & _)|[_ Hprim]]; [done|]. by apply Hnone in Hprim.
    + intros ->. by left.
Qed.

(** C10.  The handlers that write addresses keep every user at one
    primary address at most.  [POST /addresses] and [PUT /addresses/:id]
    with [isPrimary] true and the identifier of the owner of the address
    first clear the flag on the addresses of that user, so that the
    address created or updated is afterwards the user's only primary one;
    with [isPrimary] false (or missing) they make no address primary.
    [POST /auth/register] inserts one address, primary, owned by the user
    it has just created. *)
Theorem address_writes_one_primary db :
  one_primary db →
  (∀ req,
     one_primary (post_addresses accepts new_id req db).2 ∧
     (status (post_addresses accepts new_id req db).1 = 201%nat →
      AddressReq.isPrimary req = Some true →
      ∃ id a, body (post_addresses accepts new_id req db).1 = BAddress id a ∧
        AddressReq.userId req = Some (Address.userId a) ∧
        addresses db !! id = None ∧
        addresses (post_addresses accepts new_id req db).2 !! id = Some a ∧
        ∀ j, primary_of (post_addresses accepts new_id req db).2 (Address.userId a) j
             ↔ j = id) ∧
     (AddressReq.isPrimary req ≠ Some true →
      ∀ u j, primary_of (post_addresses accepts new_id req db).2 u j →
             primary_of db u j)) ∧
  (∀ id req,
     (AddressReq.isPrimary req = Some true →
      ∀ a, addresses db !! id = Some a →
           AddressReq.userId req = Some (Address.userId a)) →
     one_primary (put_addresses id req db).2 ∧
     (status (put_addresses id req db).1 = 200%nat →
      AddressReq.isPrimary req = Some true →
      ∃ a, addresses db !! id = Some a ∧
        ∀ j, primary_of (put_addresses id req db).2 (Address.userId a) j ↔ j = id) ∧
     (AddressReq.isPrimary req ≠ Some true →
      ∀ u j, primary_of (put_addresses id req db).2 u j → primary_of db u j)) ∧
  (∀ id, one_primary (delete_addresses id db).2) ∧
  (∀ req, addresses_owned db →
     one_primary (post_auth_register accepts new_id req db).2 ∧
     (status (post_auth_register accepts new_id req db).1 = 201%nat →
      ∃ uid aid a,
        users db !! uid = None ∧
        is_Some (users (post_auth_register accepts new_id req db).2 !! uid) ∧
        addresses db !! aid = None ∧
        addresses (post_auth_register accepts new_id req db).2
          = <[aid := a]> (addresses db) ∧
        Address.userId a = uid ∧ Address.isPrimary a = true ∧
        ∀ j, primary_of (post_auth_register accepts new_id req db).2 uid j ↔ j = aid)).
Proof.
  intros Hone. split; [|split; [|split]].
  - intros req. by apply post_addresses_one_primary.
  - intros id req Howner. by apply put_addresses_one_primary.
  - intros id. by apply delete_addresses_one_primary.
  - intros req Howned. by apply post_auth_register_one_primary.
Qed.

End Properties.

(** ** The properties on the example database *)

Lemma next_id_fresh (X : gset Id) : next_id X ∉ X.
Proof. apply is_fresh. Qed.

Lemma post_orders_atomic_witness :
  status (post_orders fk_accepts next_id
            (cart (Some [line "X" 2; line "Z" 1])) db0).1 = 500%nat ∧
  (post_orders fk_accepts next_id (cart (Some [line "X" 2; line "Z" 1])) db0).2 = db0.
Proof.
  apply (proj2 (post_orders_atomic fk_accepts next_id
                  (cart (Some [line "X" 2; line "Z" 1])) db0)
           [line "X" 2; line "Z" 1] (line "Z" 1)).
  - reflexivity.
  - right. left.
  - reflexivity.
Defined.

(** C2, as the claim has it, fails when two line items name one product:
    each of them is taken out of stock. *)
Lemma stock_per_line_item_counterexample :
  let req := cart (Some [line "X" 1; line "X" 2]) in
  let r := post_orders fk_accepts next_id req db0 in
  status r.1 = 201%nat ∧
  line "X" 1 ∈ [line "X" 1; line "X" 2] ∧
  Product.stock <$> products db0 !! "X" = Some 5 ∧
  Product.stock <$> products r.2 !! "X" = Some 2 ∧
  2 ≠ 5 - Item.quantity (line "X" 1).
Proof.
  repeat split; try reflexivity; [left | discriminate].
Qed.

Lemma post_orders_stock_sold_witness :
  ∃ p', products (post_orders fk_accepts next_id
                    (cart (Some [line "X" 1; line "X" 2])) db0).2 !! "X" = Some p' ∧
    Product.stock p' = 2 ∧ Product.sold p' = 3.
Proof.
  destruct (post_orders_stock_sold fk_accepts next_id
              (cart (Some [line "X" 1; line "X" 2])) db0
              [line "X" 1; line "X" 2] "X" shirt)
    as (p' & Hp' & Hstock & Hsold & _); [reflexivity..|].
  exists p'. split; [exact Hp'|]. split; [exact Hstock|exact Hsold].
Defined.

(** C3, as the claim has it, fails on an empty list of items: the request
    is answered 201 and an order without line items is in the table. *)
Lemma post_orders_empty_counterexample :
  let r := post_orders fk_accepts next_id (cart (Some [])) db0 in
  orders db0 = ∅ ∧
  status r.1 = 201%nat ∧
  orders r.2 !! "0" = Some (order_data (cart (Some []))) ∧
  items_of "0" r.2 = [].
Proof. repeat split. Qed.

Lemma db0_items_owned : items_owned db0.
Proof. intros i Hi. by apply elem_of_nil in Hi. Qed.

Lemma post_orders_items_required_witness :
  post_orders fk_accepts next_id (cart None) db0 = (checkout_error, db0) ∧
  ∃ oid o,
    body (post_orders fk_accepts next_id (cart (Some [line "X" 3])) db0).1
      = BOrder oid o None ∧
    length (items_of oid (post_orders fk_accepts next_id
                            (cart (Some [line "X" 3])) db0).2) = 1%nat.
Proof.
  split.
  - apply (proj1 (post_orders_items_required fk_accepts next_id next_id_fresh
                    (cart None) db0)). reflexivity.
  - destruct (proj2 (post_orders_items_required fk_accepts next_id next_id_fresh
                       (cart (Some [line "X" 3])) db0) [line "X" 3])
      as (oid & o & Hbody & _ & _ & Hlen & _);
      [reflexivity | reflexivity | exact db0_items_owned |].
    exists oid, o. split; [exact Hbody | exact Hlen].
Defined.

(** The end-to-end scenario of the specification: five in stock, three
    ordered. *)
Example post_orders_scenario :
  let r := post_orders fk_accepts next_id (cart (Some [line "X" 3])) db0 in
  status r.1 = 201%nat ∧
  OrderItem.quantity <$> items_of "0" r.2 = [3] ∧
  Product.stock <$> products r.2 !! "X" = Some 2 ∧
  Product.sold <$> products r.2 !! "X" = Some 3.
Proof. repeat split. Qed.

(** C4.  Five in stock, six ordered: the request is answered 201 and the
    product is left with a stock of -1. *)
Lemma post_orders_oversells :
  let r := post_orders fk_accepts next_id (cart (Some [line "X" 6])) db0 in
  Product.stock <$> products db0 !! "X" = Some 5 ∧
  status r.1 = 201%nat ∧
  Product.stock <$> products r.2 !! "X" = Some (-1) ∧
  Product.sold <$> products r.2 !! "X" = Some 6.
Proof. repeat split. Qed.

Lemma post_orders_snapshot_witness :
  let db' := (post_orders fk_accepts next_id (cart (Some [line "X" 3])) db0).2 in
  length (items_of (next_id (dom (orders db0))) db') = 1%nat ∧
  ∃ i, items_of (next_id (dom (orders db0))) db' !! 0%nat = Some i ∧
       OrderItem.price i = (12 # 1)%Q ∧ OrderItem.name i = "A" ∧
       OrderItem.image i = "img".
Proof.
  destruct (post_orders_snapshot fk_accepts next_id next_id_fresh
              (cart (Some [line "X" 3])) db0 [line "X" 3])
    as (Hlen & Hsnap & _); [reflexivity | reflexivity | exact db0_items_owned |].
  split; [exact Hlen|]. exact (Hsnap 0%nat (line "X" 3) eq_refl).
Defined.

(** C6.  The body of the 201 of the transactional [POST /orders] carries
    the order and its identifier but not its line items, which are in the
    table; the mobile [POST /orders] sends them. *)
Lemma post_orders_body_without_items :
  let req := cart (Some [line "X" 3]) in
  let r := post_orders fk_accepts next_id req db0 in
  let m := post_orders_mobile fk_accepts next_id req db0 in
  status r.1 = 201%nat ∧
  body r.1 = BOrder "0" (order_data req) None ∧
  items_of "0" r.2 = [OrderItem.mk "0" "0" "X" "A" 3 (12 # 1) "img"] ∧
  body m.1 = BOrder "0" (order_data req)
               (Some [OrderItem.mk "0" "0" "X" "A" 3 (12 # 1) "img"]).
Proof. repeat split. Qed.

Lemma fk_accepts_stable d d' o rows :
  users d' = users d → addresses d' = addresses d →
  dom (products d') = dom (products d) →
  fk_accepts d' (InsOrder o rows) = fk_accepts d (InsOrder o rows).
Proof. intros Hu Ha _. unfold fk_accepts. by rewrite Hu, Ha. Qed.


(** Five checkouts of one unit each, one after the other, from a stock of
    five. *)
Example five_checkouts :
  let db' := one_by_one fk_accepts next_id (replicate 5 (cart (Some [line "X" 1]))) db0 in
  Product.stock <$> products db' !! "X" = Some 0 ∧
  Product.sold <$> products db' !! "X" = Some 5 ∧
  size (orders db') = 5%nat.
Proof. repeat split. Qed.


Lemma db0_one_primary : one_primary db0.
Proof.
  assert (∀ u i, primary_of db0 u i → i = "a1") as Honly.
  { intros u i (a & Ha & _ & Hp). unfold db0 in Ha. cbn [addresses] in Ha.
    apply lookup_insert_Some in Ha as [[<- _]|[_ Ha]]; [done|].
    apply lookup_singleton_Some in Ha as [_ <-]. discriminate Hp. }
  intros u i j Hi Hj. by rewrite (Honly u i Hi), (Honly u j Hj).
Qed.

Lemma db0_addresses_owned : addresses_owned db0.
Proof.
  intros id a Ha. unfold db0 in *. cbn [addresses users] in *.
  apply lookup_insert_Some in Ha as [[_ <-]|[_ Ha]];
    [|apply lookup_singleton_Some in Ha as [_ <-]]; set_solver.
Qed.

Lemma address_writes_one_primary_witness :
  (one_primary (post_addresses fk_accepts next_id (address_of "u1" (Some true)) db0).2 ∧
   ∃ id a,
     body (post_addresses fk_accepts next_id (address_of "u1" (Some true)) db0).1
       = BAddress id a ∧
     ∀ j, primary_of (post_addresses fk_accepts next_id
                        (address_of "u1" (Some true)) db0).2 (Address.userId a) j
          ↔ j = id) ∧
  (one_primary (put_addresses "a2" (address_of "u1" (Some true)) db0).2 ∧
   ∃ a, addresses db0 !! "a2" = Some a ∧
     ∀ j, primary_of (put_addresses "a2" (address_of "u1" (Some true)) db0).2
            (Address.userId a) j ↔ j = "a2") ∧
  one_primary (delete_addresses "a1" db0).2 ∧
  (one_primary (post_auth_register fk_accepts next_id bia db0).2 ∧
   ∃ uid aid a,
     users db0 !! uid = None ∧
     addresses (post_auth_register fk_accepts next_id bia db0).2
       = <[aid := a]> (addresses db0) ∧
     Address.userId a = uid ∧ Address.isPrimary a = true).
Proof.
  destruct (address_writes_one_primary fk_accepts next_id next_id_fresh db0 db0_one_primary)
    as (Hpost & Hput & Hdelete & Hregister).
  split; [|split; [|split]].
  - destruct (Hpost (address_of "u1" (Some true))) as (Hone & Hmark & _).
    split; [exact Hone|].
    destruct (Hmark eq_refl eq_refl) as (id & a & Hbody & _ & _ & _ & Honly).
    exists id, a. split; [exact Hbody|exact Honly].
  - destruct (Hput "a2" (address_of "u1" (Some true))) as (Hone & Hmark & _).
    { intros _ a Ha.
      assert (addresses db0 !! "a2" = Some (home "u1" false)) as Hrow by reflexivity.
      rewrite Hrow in Ha. injection Ha as <-. reflexivity. }
    split; [exact Hone|]. exact (Hmark eq_refl eq_refl).
  - exact (Hdelete "a1").
  - destruct (Hregister bia db0_addresses_owned) as (Hone & Hnew).
    split; [exact Hone|].
    destruct (Hnew eq_refl) as (uid & aid & a & Hu & _ & _ & Ha & Hau & Hap & _).
    exists uid, aid, a. split; [exact Hu|]. split; [exact Ha|]. split; [exact Hau|exact Hap].
Defined.

(** The condition on [PUT /addresses/:id] is needed: with the identifier
    of another user in the body, the addresses of that other user are
    cleared and the owner of the address is left with two primary ones. *)
Example put_addresses_other_user :
  ¬ one_primary (put_addresses "a2" (address_of "u2" (Some true)) db0).2.
Proof.
  intros Hone.
  assert ("a1" = "a2") as Heq; [|discriminate Heq].
  apply (Hone "u1"); eexists; (split; [reflexivity|split; reflexivity]).
Qed.

(** ** More on the handlers *)

Section MoreProperties.

Variable accepts : DB → Insert → bool.
Variable cart_accepts : list CartItem.t → CartItem.t → bool.
Variable favorite_accepts : list Favorite.t → Favorite.t → bool.
Variable new_id : gset Id → Id.
Hypothesis new_id_fresh : ∀ X : gset Id, new_id X ∉ X.

(** *** The catalog edit *)


(** *** Registration *)

(** X1.  [POST /auth/register] is all or nothing.  Any answer but 201 is a 400
    and changes nothing.  A 201 has inserted one user, under a new
    identifier, with the role sent or ["SELLER"] when none or the empty
    string was sent; one address; one shop when [shopData] was sent and
    none otherwise; and has touched no product and no order. *)
Theorem post_auth_register_all_or_nothing req db :
  let r := post_auth_register accepts new_id req db in
  (status r.1 ≠ 201%nat → status r.1 = 400%nat ∧ r.2 = db) ∧
  (status r.1 = 201%nat →
   ∃ uid u userData,
     RegisterReq.userData req = Some userData ∧
     users db !! uid = None ∧
     users r.2 = <[uid := u]> (users db) ∧
     UserData.name userData = Some (User.name u) ∧ User.name u ≠ "" ∧
     User.role u = js_or (UserData.role userData) "SELLER" ∧ User.role u ≠ "" ∧
     (∃ aid, addresses db !! aid = None ∧ dom (addresses r.2) = {[aid]} ∪ dom (addresses db)) ∧
     match RegisterReq.shopData req with
     | None => shops r.2 = shops db ∧ body r.1 = BUser uid u None
     | Some shopData =>
         ∃ sid, shops db !! sid = None ∧
           shops r.2 = <[sid := new_shop shopData uid]> (shops db) ∧
           body r.1 = BUser uid u (Some (sid, new_shop shopData uid))
     end ∧
     products r.2 = products db ∧ orders r.2 = orders db ∧
     orderItems r.2 = orderItems db).
Proof.
  intros r. subst r.
  remember (post_auth_register accepts new_id req db) as r eqn:Hr.
  unfold post_auth_register, reply in Hr.
  destruct (RegisterReq.userData req) as [userData|]; [|subst r; by split].
  destruct (UserData.name userData) as [name|] eqn:Hname; [|subst r; by split].
  destruct (decide (name = "")) as [|Hne]; [subst r; by split|].
  unfold try_respond, js_get in Hr.
  destruct (RegisterReq.addressData req) as [addressData|]; [|subst r; by split].
  unfold bind, ret in Hr. rewrite user_create_run in Hr. cbv zeta in Hr.
  destruct (accepts db _); [|subst r; by split].
  assert (js_or (UserData.role userData) "SELLER" ≠ "") as Hrole.
  { unfold js_or. destruct (UserData.role userData) as [role|]; [|done].
    by destruct (decide (role = "")). }
  pose proof (new_id_fresh (dom (users db))) as Hu%not_elem_of_dom.
  pose proof (new_id_fresh (dom (addresses db))) as Ha%not_elem_of_dom.
  pose proof (new_id_fresh (dom (shops db))) as Hs%not_elem_of_dom.
  destruct (RegisterReq.shopData req) as [shopData|]; simpl in Hr; subst r.
  - split; [intros Hst; by destruct Hst|intros _].
    exists (new_id (dom (users db))), (new_user name userData), userData.
    repeat split; try done.
    + exists (new_id (dom (addresses db))). split; [done|]. simpl. apply dom_insert_L.
    + by exists (new_id (dom (shops db))).
  - split; [intros Hst; by destruct Hst|intros _].
    exists (new_id (dom (users db))), (new_user name userData), userData.
    repeat split; try done.
    exists (new_id (dom (addresses db))). split; [done|]. simpl. apply dom_insert_L.
Qed.

(** *** The mobile checkout *)


(** *** Addresses: what a failed write leaves behind *)

(** X17.  [POST /addresses] and [PUT /addresses/:id] do not run in a
    transaction.  With [isPrimary] true, the flag is cleared on the
    addresses of [userId] before the row is written; when the write then
    fails (the schema refuses the new address, or no address has the
    identifier) the answer is 500 and that user is left without a primary
    address. *)
Theorem address_writes_not_atomic req u db :
  AddressReq.userId req = Some u →
  AddressReq.isPrimary req = Some true →
  (status (post_addresses accepts new_id req db).1 ≠ 201%nat →
   status (post_addresses accepts new_id req db).1 = 500%nat ∧
   ∀ j, ¬ primary_of (post_addresses accepts new_id req db).2 u j) ∧
  (∀ id, addresses db !! id = None →
   status (put_addresses id req db).1 = 500%nat ∧
   ∀ j, ¬ primary_of (put_addresses id req db).2 u j).
Proof.
  intros Hu Hp.
  destruct (clear_if_primary_run req db) as (db1 & Hrun & _ & _ & _ & Hclear).
  destruct (Hclear Hp) as (Hdom & _ & Hprim). rewrite Hu in Hprim.
  assert (∀ j, ¬ primary_of db1 u j) as Hnone.
  { intros j Hj. apply Hprim in Hj as [_ Hne]. done. }
  split.
  - rewrite post_addresses_run, Hrun, Hu. cbv zeta.
    destruct (accepts db1 _); [intros Hst; by destruct Hst|]. done.
  - intros id Hid. rewrite put_addresses_run, Hrun.
    assert (addresses db1 !! id = None) as ->; [|done].
    apply eq_None_not_Some. rewrite Hdom, Hid. by intros [? ?].
Qed.

(** *** What a checkout never touches *)

(** X4.  Whatever the request and however it ends, [POST /orders] adds no
    product and removes none, changes of a product nothing but [stock] and
    [sold], and leaves users, shops and addresses as they were. *)
Theorem post_orders_only_stock_sold req db :
  let db' := (post_orders accepts new_id req db).2 in
  users db' = users db ∧ shops db' = shops db ∧ addresses db' = addresses db ∧
  dom (products db') = dom (products db) ∧
  ∀ pid p', products db' !! pid = Some p' →
    ∃ p, products db !! pid = Some p ∧
      Product.name p' = Product.name p ∧
      Product.description p' = Product.description p ∧
      Product.price p' = Product.price p ∧
      Product.category p' = Product.category p ∧
      Product.image p' = Product.image p ∧
      Product.images p' = Product.images p ∧
      Product.variations p' = Product.variations p ∧
      Product.shopId p' = Product.shopId p ∧
      Product.stock p' + Product.sold p' = Product.stock p + Product.sold p.
Proof.
  intros db'. subst db'.
  split; [|split; [|split; [|split; [apply post_orders_dom_products|]]]].
  1-3: destruct (post_orders_cases accepts new_id req db)
         as [(l & _ & _ & _ & _ & Hu & Hs & Ha & _)|[Hr _]]; [done|by rewrite Hr].
  intros pid p' Hp'.
  destruct (post_orders_cases accepts new_id req db)
    as [(l & _ & _ & _ & _ & _ & _ & _ & _ & _ & Hp)|[Hr _]].
  - rewrite Hp in Hp'. destruct (products db !! pid) as [p|]; [|done].
    injection Hp' as <-. exists p. split; [done|].
    unfold sale, decrement, increment. simpl. repeat split; try done. lia.
  - rewrite Hr in Hp'. simpl in Hp'. exists p'. split; [done|]. repeat split; done.
Qed.

(** *** The order status *)

Lemma patch_orders_status_run id status db :
  patch_orders_status id status db =
  match orders db !! id with
  | None => (patch_orders_status_error, db)
  | Some o =>
      (mkResponse 200 (BOrder id (with_status status o) None),
       set_orders <[id := with_status status o]> db)
  end.
Proof.
  cbv beta iota zeta delta
    [patch_orders_status try_respond bind ret throw order_update get modify].
  by destruct (orders db !! id).
Qed.

(** X9.  [PATCH /orders/:id/status] checks no transition: whatever status the
    order has, it gets the one sent, so that of two updates the later one
    alone counts; the buyer, the total, the payment method, the address,
    the line items and the stock stay as they are.  For an identifier no
    order has, the answer is 500 and nothing changes. *)
Theorem patch_orders_status_last_wins id s1 s2 db :
  (orders db !! id = None →
   patch_orders_status id (Some s2) db = (patch_orders_status_error, db)) ∧
  (∀ o, orders db !! id = Some o →
     let r1 := patch_orders_status id (Some s1) db in
     let r2 := patch_orders_status id (Some s2) r1.2 in
     status r2.1 = 200%nat ∧
     r2 = patch_orders_status id (Some s2) db ∧
     ∃ o', body r2.1 = BOrder id o' None ∧ orders r2.2 !! id = Some o' ∧
       Order.status o' = s2 ∧
       Order.customerId o' = Order.customerId o ∧ Order.total o' = Order.total o ∧
       Order.paymentMethod o' = Order.paymentMethod o ∧
       Order.addressId o' = Order.addressId o ∧
       dom (orders r2.2) = dom (orders db) ∧
       orderItems r2.2 = orderItems db ∧ products r2.2 = products db).
Proof.
  split.
  - intros Hnone. by rewrite patch_orders_status_run, Hnone.
  - intros o Ho r1 r2. subst r1 r2.
    rewrite (patch_orders_status_run id (Some s1) db), Ho. cbn [snd].
    rewrite !patch_orders_status_run. cbn [orders set_orders].
    rewrite lookup_insert_eq, Ho. cbn [fst snd status body].
    split; [done|]. split.
    + unfold set_orders. cbn. by rewrite insert_insert_eq.
    + exists (with_status (Some s2) (with_status (Some s1) o)).
      repeat split; try done.
      * apply lookup_insert_eq.
      * cbn. rewrite !dom_insert_L, union_assoc_L, union_idemp_L.
        apply subseteq_union_1_L, singleton_subseteq_l, elem_of_dom. eauto.
Qed.

(** *** Line items and their orders *)

Lemma put_products_orders id req db :
  orders (put_products id req db).2 = orders db.
Proof.
  cbv beta iota zeta delta
    [put_products try_respond js_iter bind ret throw product_update get modify].
  destruct (ProductReq.images req) as [images|]; [|done].
  destruct (ProductReq.variations req) as [|[json|]|json]; try done.
  all: destruct (ProductReq.price req) as [price|]; [|done].
  all: destruct (ProductReq.stock req) as [stock|]; [|done].
  all: by destruct (products db !! id).
Qed.

(** X5.  Every line item belongs to an order of the Order table: both
    checkouts, the status update and the catalog edit keep it so. *)
Theorem items_owned_kept db :
  items_owned db →
  (∀ req, items_owned (post_orders accepts new_id req db).2) ∧
  (∀ req, items_owned (post_orders_mobile accepts new_id req db).2) ∧
  (∀ id status, items_owned (patch_orders_status id status db).2) ∧
  (∀ id req, items_owned (put_products id req db).2).
Proof.
  intros Howned. split; [|split; [|split]].
  - intros req. by apply post_orders_items_owned.
  - intros req. rewrite post_orders_mobile_run.
    destruct (OrderReq.items req) as [l|]; [|done].
    destruct (accepts db _); [|done]. cbv zeta. cbn [snd].
    intros i. unfold insert_order. cbn. rewrite dom_insert_L, elem_of_app.
    intros [Hold|Hnew].
    + apply elem_of_union_r. by apply Howned.
    + apply elem_of_union_l, elem_of_singleton. by apply create_items_orderId in Hnew.
  - intros id status. rewrite patch_orders_status_run.
    destruct (orders db !! id) as [o|]; [|done].
    intros i Hi. cbn in *. rewrite dom_insert_L. apply elem_of_union_r. by apply Howned.
  - intros id req i.
    rewrite put_products_orderItems, put_products_orders. apply Howned.
Qed.

(** *** Checkouts in any order *)


(** *** Deleting and editing an address *)

(** X18.  [DELETE /addresses/:id] answers 204 only for an address of the table,
    which it removes, leaving the others; it promotes no other address:
    after the primary address of a user is deleted the user has none.  Any
    other answer, the one for an identifier no address has among them, is
    a 500 and changes nothing. *)
Theorem delete_addresses_effect id db :
  (addresses db !! id = None → status (delete_addresses id db).1 = 500%nat) ∧
  (status (delete_addresses id db).1 ≠ 204%nat →
   status (delete_addresses id db).1 = 500%nat ∧ (delete_addresses id db).2 = db) ∧
  (status (delete_addresses id db).1 = 204%nat →
   ∃ a, addresses db !! id = Some a ∧
     addresses (delete_addresses id db).2 !! id = None ∧
     (∀ j, j ≠ id →
        addresses (delete_addresses id db).2 !! j = addresses db !! j) ∧
     users (delete_addresses id db).2 = users db ∧
     orders (delete_addresses id db).2 = orders db ∧
     (one_primary db → Address.isPrimary a = true →
      ∀ j, ¬ primary_of (delete_addresses id db).2 (Address.userId a) j)).
Proof.
  cbv beta iota zeta delta
    [delete_addresses try_respond bind ret throw address_delete get modify].
  destruct (addresses db !! id) as [a|] eqn:Ha; cbn [fst snd status].
  - split; [done|]. split; [intros Hst; by destruct Hst|]. intros _.
    exists a. split; [done|]. split; [cbn; apply lookup_delete_eq|].
    split; [intros j Hj; cbn; by rewrite lookup_delete_ne|].
    split; [done|]. split; [done|].
    intros Hone Hp j (b & Hb & Hu & Hpb). cbn in Hb.
    apply lookup_delete_Some in Hb as [Hne Hb].
    apply Hne. apply (Hone (Address.userId a)); [by exists a|by exists b].
  - split; [done|]. split; [done|]. discriminate.
Qed.

(** X19.  [PUT /addresses/:id] never moves an address to another user, whatever
    [userId] the body carries; it creates and removes no address; and a
    column whose property is missing from the body keeps its value. *)
Theorem put_addresses_keeps_owner id req db a :
  addresses db !! id = Some a →
  status (put_addresses id req db).1 = 200%nat ∧
  dom (addresses (put_addresses id req db).2) = dom (addresses db) ∧
  (∀ j b, addresses db !! j = Some b →
     ∃ b', addresses (put_addresses id req db).2 !! j = Some b' ∧
           Address.userId b' = Address.userId b) ∧
  ∃ a', addresses (put_addresses id req db).2 !! id = Some a' ∧
    body (put_addresses id req db).1 = BAddress id a' ∧
    Address.zipCode a' = AddressReq.zipCode req ∪ Address.zipCode a ∧
    Address.street a' = AddressReq.street req ∪ Address.street a ∧
    Address.number a' = AddressReq.number req ∪ Address.number a ∧
    Address.complement a' = AddressReq.complement req ∪ Address.complement a ∧
    Address.neighborhood a' = AddressReq.neighborhood req ∪ Address.neighborhood a ∧
    Address.city a' = AddressReq.city req ∪ Address.city a ∧
    Address.state a' = AddressReq.state req ∪ Address.state a ∧
    (∀ flag, AddressReq.isPrimary req = Some flag → Address.isPrimary a' = flag).
Proof.
  intros Ha. rewrite put_addresses_run.
  assert (∃ db1, clear_if_primary req db = (Return tt, db1) ∧
    (addresses db1 = addresses db ∨
     addresses db1 =
       (λ x, if selects (AddressReq.userId req) x then unset_primary x else x)
         <$> addresses db)) as (db1 & -> & Hdb1).
  { unfold clear_if_primary. destruct (js_truthy _); eexists; (split; [done|]);
      [by right|by left]. }
  assert (∀ j b, addresses db !! j = Some b →
            ∃ b1, addresses db1 !! j = Some b1 ∧
              Address.userId b1 = Address.userId b ∧
              Address.zipCode b1 = Address.zipCode b ∧
              Address.street b1 = Address.street b ∧
              Address.number b1 = Address.number b ∧
              Address.complement b1 = Address.complement b ∧
              Address.neighborhood b1 = Address.neighborhood b ∧
              Address.city b1 = Address.city b ∧
              Address.state b1 = Address.state b) as Hrows.
  { intros j b Hb. destruct Hdb1 as [->| ->].
    - exists b. by repeat split.
    - rewrite lookup_fmap, Hb. cbn. eexists. split; [done|].
      by destruct (selects _ b). }
  assert (dom (addresses db1) = dom (addresses db)) as Hdom.
  { destruct Hdb1 as [->| ->]; [done|]. apply dom_fmap_L. }
  destruct (Hrows id a Ha) as (a1 & Ha1 & Hu1 & Hz & Hs & Hn & Hc & Hnb & Hci & Hst).
  rewrite Ha1. cbn [fst snd status body].
  split; [done|]. split; [|split].
  - cbn. rewrite dom_insert_L, Hdom.
    apply subseteq_union_1_L, singleton_subseteq_l, elem_of_dom. eauto.
  - intros j b Hb. cbn. destruct (decide (j = id)) as [->|Hne].
    + rewrite lookup_insert_eq. eexists. split; [done|]. cbn. congruence.
    + rewrite lookup_insert_ne by done.
      destruct (Hrows j b Hb) as (b1 & Hb1 & Hub & _). by exists b1.
  - exists (edited_address req a1). cbn.
    split; [apply lookup_insert_eq|]. split; [done|].
    rewrite Hz, Hs, Hn, Hc, Hnb, Hci, Hst. repeat split; try done.
    intros flag Hflag. by rewrite Hflag.
Qed.

(** *** The cart *)

Lemma find_split {A} (f : A → bool) (l : list A) x :
  find f l = Some x →
  ∃ l1 l2, l = l1 ++ x :: l2 ∧ f x = true ∧ ∀ y, y ∈ l1 → f y = false.
Proof.
  induction l as [|a l IH]; [done|]. cbn. destruct (f a) eqn:Hfa.
  - intros [= ->]. exists [], l. split; [done|]. split; [done|].
    intros y Hy. by apply elem_of_nil in Hy.
  - intros Hfind. destruct (IH Hfind) as (l1 & l2 & -> & Hfx & Hl1).
    exists (a :: l1), l2. split; [done|]. split; [done|].
    intros y [->|Hy]%elem_of_cons; auto.
Qed.

Lemma find_none_elem {A} (f : A → bool) (l : list A) :
  find f l = None ↔ ∀ y, y ∈ l → f y = false.
Proof.
  induction l as [|a l IH]; cbn.
  - split; [|done]. intros _ y Hy. by apply elem_of_nil in Hy.
  - destruct (f a) eqn:Hfa.
    + split; [done|]. intros H. rewrite (H a) in Hfa; [done|by left].
    + rewrite IH. split.
      * intros H y [->|Hy]%elem_of_cons; auto.
      * intros H y Hy. apply H. by right.
Qed.

Lemma in_cart_pair u p c :
  in_cart u p c = true ↔ (CartItem.userId c, CartItem.productId c) = (u, p).
Proof.
  unfold in_cart. rewrite andb_true_iff, !bool_decide_eq_true.
  split; [intros [-> ->]; done|intros [= -> ->]; done].
Qed.

Lemma cart_quantity_cons u p c l :
  cart_quantity u p (c :: l) =
  if in_cart u p c then CartItem.quantity c + cart_quantity u p l
  else cart_quantity u p l.
Proof. reflexivity. Qed.

Lemma cart_quantity_app u p l1 l2 :
  cart_quantity u p (l1 ++ l2) = cart_quantity u p l1 + cart_quantity u p l2.
Proof.
  induction l1 as [|c l1 IH]; [done|].
  rewrite <- app_comm_cons, !cart_quantity_cons, IH.
  destruct (in_cart u p c); lia.
Qed.

Lemma cart_quantity_none u p l :
  (∀ c, c ∈ l → in_cart u p c = false) → cart_quantity u p l = 0.
Proof.
  induction l as [|c l IH]; intros H; [done|].
  rewrite cart_quantity_cons, (H c) by (by left).
  apply IH. intros y Hy. apply H. by right.
Qed.

(** In a cart with one row at most for a user and a product, the row found
    for them is the only one. *)
Lemma cart_merged_split u p l1 c l2 :
  cart_merged (l1 ++ c :: l2) → in_cart u p c = true →
  ∀ y, y ∈ l1 ++ l2 → in_cart u p y = false.
Proof.
  unfold cart_merged. rewrite fmap_app, fmap_cons. intros Hnd Hc y Hy.
  apply NoDup_app in Hnd as (_ & Hl1 & Hnd). apply NoDup_cons in Hnd as [Hl2 _].
  apply in_cart_pair in Hc. apply not_true_is_false. intros Hyc%in_cart_pair.
  apply elem_of_app in Hy as [Hy|Hy].
  - apply (Hl1 (u, p)); [|rewrite <- Hc; by left].
    apply list_elem_of_fmap. by exists y.
  - apply Hl2. rewrite Hc. apply list_elem_of_fmap. by exists y.
Qed.

(** With identifiers of their own, an update under an identifier touches
    the one row that has it. *)
Lemma cart_update_split id data l1 c l2 :
  cart_keys (l1 ++ c :: l2) → CartItem.id c = id →
  cart_update id data (l1 ++ c :: l2) = (Return (data c), l1 ++ data c :: l2).
Proof.
  unfold cart_keys. rewrite fmap_app, fmap_cons. intros Hnd Hid.
  apply NoDup_app in Hnd as (_ & Hl1 & Hnd). apply NoDup_cons in Hnd as [Hl2 _].
  assert (∀ y, y ∈ l1 → CartItem.id y ≠ id) as Hne1.
  { intros y Hy Heq. apply (Hl1 id); [rewrite <- Heq; by apply list_elem_of_fmap_2|].
    rewrite <- Hid. by left. }
  assert (∀ y, y ∈ l2 → CartItem.id y ≠ id) as Hne2.
  { intros y Hy Heq. apply Hl2. rewrite Hid, <- Heq. by apply list_elem_of_fmap_2. }
  assert (∀ l : list CartItem.t, (∀ y, y ∈ l → CartItem.id y ≠ id) →
            (λ r, if decide (CartItem.id r = id) then data r else r) <$> l = l) as Hsame.
  { induction l as [|y l IH]; intros H; [done|]. cbn.
    rewrite decide_False by (apply H; by left). f_equal. apply IH.
    intros z Hz. apply H. by right. }
  unfold cart_update.
  assert (find (λ c0, bool_decide (CartItem.id c0 = id)) (l1 ++ c :: l2) = Some c) as ->.
  { clear Hl1 Hl2 Hne2 Hsame. induction l1 as [|y l1 IH]; cbn.
    - by rewrite bool_decide_eq_true_2.
    - rewrite bool_decide_eq_false_2 by (apply Hne1; by left).
      apply IH. intros z Hz. apply Hne1. by right. }
  f_equal. rewrite fmap_app, fmap_cons, decide_True by done.
  by rewrite (Hsame l1 Hne1), (Hsame l2 Hne2).
Qed.

Lemma cart_update_missing id data cart :
  (∀ c, c ∈ cart → CartItem.id c ≠ id) →
  cart_update id data cart = (Throw RecordNotFound, cart).
Proof.
  intros H. unfold cart_update.
  assert (find (λ c, bool_decide (CartItem.id c = id)) cart = None) as ->; [|done].
  apply find_none_elem. intros y Hy. apply bool_decide_eq_false_2. by apply H.
Qed.


Lemma filter_all {A} (f : A → bool) (l : list A) :
  (∀ y, y ∈ l → f y = true) → List.filter f l = l.
Proof.
  induction l as [|a l IH]; intros H; [done|]. cbn.
  rewrite (H a) by (by left). f_equal. apply IH. intros y Hy. apply H. by right.
Qed.

Lemma filter_none {A} (f : A → bool) (l : list A) :
  (∀ y, y ∈ l → f y = false) → List.filter f l = [].
Proof.
  induction l as [|a l IH]; intros H; [done|]. cbn.
  rewrite (H a) by (by left). apply IH. intros y Hy. apply H. by right.
Qed.

Lemma elem_of_filter_bool {A} (f : A → bool) (l : list A) x :
  x ∈ List.filter f l ↔ x ∈ l ∧ f x = true.
Proof. rewrite !list_elem_of_In. apply filter_In. Qed.

Lemma NoDup_fmap_filter {A B} (f : A → B) (g : A → bool) (l : list A) :
  NoDup (f <$> l) → NoDup (f <$> List.filter g l).
Proof.
  induction l as [|a l IH]; [done|]. cbn. intros [Ha Hl]%NoDup_cons.
  destruct (g a); [|by apply IH]. cbn. apply NoDup_cons. split; [|by apply IH].
  intros (y & Hy & [Hin _]%elem_of_filter_bool)%list_elem_of_fmap.
  apply Ha. apply list_elem_of_fmap. by exists y.
Qed.

Lemma cart_keys_split l1 c l2 :
  cart_keys (l1 ++ c :: l2) → ∀ y, y ∈ l1 ++ l2 → CartItem.id y ≠ CartItem.id c.
Proof.
  unfold cart_keys. rewrite fmap_app, fmap_cons. intros Hnd y Hy Heq.
  apply NoDup_app in Hnd as (_ & Hl1 & Hnd). apply NoDup_cons in Hnd as [Hl2 _].
  apply elem_of_app in Hy as [Hy|Hy].
  - apply (Hl1 (CartItem.id c)); [|by left].
    apply list_elem_of_fmap. by exists y.
  - apply Hl2. apply list_elem_of_fmap. by exists y.
Qed.

Lemma cart_split_others u p l1 c l2 :
  (u, p) ≠ (CartItem.userId c, CartItem.productId c) →
  cart_quantity u p (l1 ++ c :: l2) = cart_quantity u p (l1 ++ l2).
Proof.
  intros Hne. rewrite !cart_quantity_app, cart_quantity_cons.
  destruct (in_cart u p c) eqn:Hc; [|done]. apply in_cart_pair in Hc. congruence.
Qed.



(** X14.  [DELETE /cart/user/:userId] empties the cart of that user and of no
    one else: [GET /cart/:userId] then has no row for the user and the rows
    it had for anyone else, and the next [POST /cart] of the user that is
    answered inserts a row, under 201, with the quantity sent. *)
Theorem delete_cart_user_empties u cart :
  let r := delete_cart_user u cart in
  code r.1 = 204%nat ∧
  get_cart u r.2 = [] ∧
  (∀ p, cart_quantity u p r.2 = 0) ∧
  (∀ u', u' ≠ u → get_cart u' r.2 = get_cart u' cart) ∧
  (cart_keys cart → cart_keys r.2) ∧
  (cart_merged cart → cart_merged r.2) ∧
  (∀ req reply cart', CartReq.userId req = u →
     post_cart cart_accepts new_id req r.2 = (Return reply, cart') →
     code reply = 201%nat ∧ CartItem.quantity (payload reply) = CartReq.quantity req).
Proof.
  intros r. subst r. unfold delete_cart_user. cbn [fst snd code].
  set (cart' := List.filter _ cart).
  assert (∀ y, y ∈ cart' → CartItem.userId y ≠ u) as Hgone.
  { intros y [_ Hy]%elem_of_filter_bool.
    by apply negb_true_iff, bool_decide_eq_false in Hy. }
  split; [done|]. split; [|split; [|split; [|split; [|split]]]].
  - apply filter_none. intros y Hy. apply bool_decide_eq_false_2. by apply Hgone.
  - intros p. apply cart_quantity_none. intros y Hy. apply not_true_is_false.
    intros [= Hu _]%in_cart_pair. by apply (Hgone y).
  - intros u' Hne. subst cart'. clear Hgone. unfold get_cart.
    induction cart as [|c cart IH]; [done|]. cbn.
    destruct (decide (CartItem.userId c = u)) as [Hc|Hc].
    + rewrite (bool_decide_eq_true_2 _ Hc). cbn.
      rewrite bool_decide_eq_false_2 by congruence. apply IH.
    + rewrite (bool_decide_eq_false_2 _ Hc). cbn.
      destruct (bool_decide (CartItem.userId c = u')); [f_equal|]; apply IH.
  - apply NoDup_fmap_filter.
  - apply NoDup_fmap_filter.
  - intros req reply cart'' Hu. unfold post_cart. rewrite Hu.
    assert (find (in_cart u (CartReq.productId req)) cart' = None) as ->.
    { apply find_none_elem. intros y Hy. apply not_true_is_false.
      intros [= Hyu _]%in_cart_pair. by apply (Hgone y). }
    cbv zeta. destruct (cart_accepts cart' _); [|done]. by intros [= <- _].
Qed.

(** *** The favourites *)

Lemma is_favorite_pair u p f :
  is_favorite u p f = true ↔ (Favorite.userId f, Favorite.productId f) = (u, p).
Proof.
  unfold is_favorite. rewrite andb_true_iff, !bool_decide_eq_true.
  split; [intros [-> ->]; done|intros [= -> ->]; done].
Qed.

Lemma existsb_false {A} (f : A → bool) (l : list A) :
  existsb f l = false ↔ ∀ y, y ∈ l → f y = false.
Proof.
  split.
  - intros H y Hy. apply not_true_is_false. intros Hfy.
    assert (existsb f l = true) as Ht; [|congruence].
    apply existsb_exists. exists y. by rewrite <- list_elem_of_In.
  - intros H. apply not_true_is_false. intros (y & Hy & Hfy)%existsb_exists.
    apply list_elem_of_In in Hy. rewrite (H y Hy) in Hfy. done.
Qed.

(** What [POST /favorites/toggle] does to the table. *)
Lemma post_favorites_toggle_cases u p favorites :
  favorite_keys favorites →
  let r := post_favorites_toggle favorite_accepts new_id u p favorites in
  (∃ l1 e l2, favorites = l1 ++ e :: l2 ∧ is_favorite u p e = true ∧
      (∀ y, y ∈ l1 ++ l2 → is_favorite u p y = false) ∧
      r = (mkReply 200 (Favorited false), l1 ++ l2)) ∨
  (existsb (is_favorite u p) favorites = false ∧
   ((∃ row, is_favorite u p row = true ∧ (Favorite.id row ∉ Favorite.id <$> favorites) ∧
       r = (mkReply 200 (Favorited true), favorites ++ [row])) ∨
    r = (mkReply 500 (FavoriteError "Erro ao processar favorito"), favorites))).
Proof.
  intros [Hids Hpairs] r. subst r. unfold post_favorites_toggle.
  destruct (find (is_favorite u p) favorites) as [e|] eqn:Hfind.
  - left. destruct (find_split _ _ _ Hfind) as (l1 & l2 & -> & He & Hl1).
    exists l1, e, l2. split; [done|]. split; [done|].
    rewrite fmap_app, fmap_cons in Hids. rewrite fmap_app, fmap_cons in Hpairs.
    apply NoDup_app in Hids as (_ & Hi1 & [Hi2 _]%NoDup_cons).
    apply NoDup_app in Hpairs as (_ & _ & [Hp2 _]%NoDup_cons).
    split.
    + intros y [Hy|Hy]%elem_of_app; [by apply Hl1|].
      apply not_true_is_false. intros Hyp%is_favorite_pair.
      apply Hp2. apply is_favorite_pair in He. rewrite He, <- Hyp.
      apply list_elem_of_fmap. by exists y.
    + f_equal. rewrite List.filter_app. cbn.
      rewrite bool_decide_eq_true_2 by done. cbn.
      rewrite !filter_all; [done| |]; intros y Hy;
        apply negb_true_iff, bool_decide_eq_false_2; intros Heq.
      * apply Hi2. rewrite <- Heq. apply list_elem_of_fmap. by exists y.
      * apply (Hi1 (Favorite.id e)); [|by left].
        rewrite <- Heq. apply list_elem_of_fmap. by exists y.
  - right. split; [by apply existsb_false, find_none_elem|].
    destruct (favorite_accepts favorites _); [left|by right].
    eexists. split; [|split; [|done]].
    + by apply is_favorite_pair.
    + cbn. intros Hin. apply (new_id_fresh (list_to_set (Favorite.id <$> favorites))).
      by apply elem_of_list_to_set.
Qed.

Lemma existsb_app_cons_other {A} (f : A → bool) l1 e l2 :
  f e = false → existsb f (l1 ++ e :: l2) = existsb f (l1 ++ l2).
Proof. intros He. rewrite !existsb_app. cbn. by rewrite He. Qed.

(** What an answered toggle does to the favourites. *)
Lemma post_favorites_toggle_effect u p favorites now :
  favorite_keys favorites →
  let r := post_favorites_toggle favorite_accepts new_id u p favorites in
  payload r.1 = Favorited now →
  code r.1 = 200%nat ∧
  favorite_keys r.2 ∧
  (∀ u' p', (u', p') ≠ (u, p) →
     existsb (is_favorite u' p') r.2 = existsb (is_favorite u' p') favorites) ∧
  existsb (is_favorite u p) favorites = negb now ∧
  existsb (is_favorite u p) r.2 = now.
Proof.
  intros Hkeys r Hnow.
  destruct (post_favorites_toggle_cases u p favorites Hkeys)
    as [(l1 & e & l2 & -> & He & Hothers & Hr)|[Hnot [(row & Hrow & Hid & Hr)| Hr]]];
    fold r in Hr; rewrite Hr in *; cbn [fst snd payload code] in *; [| |done].
  - injection Hnow as <-.
    destruct Hkeys as [Hids Hpairs].
    rewrite fmap_app, fmap_cons in Hids. rewrite fmap_app, fmap_cons in Hpairs.
    apply NoDup_app in Hids as (Hi1 & Hi12 & [_ Hi2]%NoDup_cons).
    apply NoDup_app in Hpairs as (Hp1 & Hp12 & [_ Hp2]%NoDup_cons).
    split; [done|]. split; [|split; [|split]].
    + split; rewrite fmap_app; apply NoDup_app; (split; [done|]); (split; [|done]);
        intros x Hx Hx2; [apply (Hi12 x Hx)|apply (Hp12 x Hx)]; by right.
    + intros u' p' Hne. symmetry. apply existsb_app_cons_other.
      apply not_true_is_false. intros He'%is_favorite_pair.
      apply is_favorite_pair in He. congruence.
    + apply existsb_exists. exists e. split; [|done].
      apply list_elem_of_In, elem_of_app. right. by left.
    + by apply existsb_false.
  - injection Hnow as <-. destruct Hkeys as [Hids Hpairs].
    split; [done|]. split; [|split; [|split; [done|]]].
    + split; rewrite fmap_app; apply NoDup_app; (split; [done|]);
        (split; [|apply NoDup_singleton]);
        intros x Hx [->|[]%elem_of_nil]%elem_of_cons; [done|].
      apply list_elem_of_fmap in Hx as (y & Hy & Hin).
      apply is_favorite_pair in Hrow.
      assert (is_favorite u p y = true) as Hyes
        by (apply is_favorite_pair; congruence).
      by rewrite (proj1 (existsb_false _ _) Hnot y Hin) in Hyes.
    + intros u' p' Hne. rewrite existsb_app. cbn.
      assert (is_favorite u' p' row = false) as ->; [|by rewrite orb_false_r].
      apply not_true_is_false. intros Hrow'%is_favorite_pair.
      apply is_favorite_pair in Hrow. congruence.
    + rewrite existsb_app. cbn. rewrite Hrow. by rewrite orb_true_r.
Qed.

(** X15.  [POST /favorites/toggle] flips one favourite and says what it is now:
    the product is in the list [GET /favorites/user/:userId] gives
    afterwards exactly when the answer is [favorited: true], it was a
    favourite before exactly when the answer is [favorited: false], and no
    other favourite of anyone changes.  An answer of 500 leaves the table
    as it was. *)
Theorem post_favorites_toggle_flips u p favorites :
  favorite_keys favorites →
  let r := post_favorites_toggle favorite_accepts new_id u p favorites in
  favorite_keys r.2 ∧
  (∀ u' p', (u', p') ≠ (u, p) →
     existsb (is_favorite u' p') r.2 = existsb (is_favorite u' p') favorites) ∧
  match payload r.1 with
  | Favorited now =>
      code r.1 = 200%nat ∧
      existsb (is_favorite u p) favorites = negb now ∧
      (p ∈ get_favorites_user u favorites ↔ now = false) ∧
      (p ∈ get_favorites_user u r.2 ↔ now = true)
  | FavoriteError _ =>
      code r.1 = 500%nat ∧ r.2 = favorites ∧
      existsb (is_favorite u p) favorites = false
  end.
Proof.
  intros Hkeys r.
  assert (∀ l : list Favorite.t, p ∈ get_favorites_user u l ↔
            existsb (is_favorite u p) l = true) as Hget.
  { intros l. unfold get_favorites_user. rewrite list_elem_of_fmap, existsb_exists. split.
    - intros (y & -> & [Hy Hu%bool_decide_eq_true]%elem_of_filter_bool).
      exists y. split; [by apply list_elem_of_In|]. by apply is_favorite_pair; rewrite Hu.
    - intros (y & Hy%list_elem_of_In & [= Hu Hp]%is_favorite_pair).
      exists y. split; [done|]. apply elem_of_filter_bool. split; [done|].
      by apply bool_decide_eq_true. }
  destruct (payload r.1) as [now|msg] eqn:Hpay.
  - destruct (post_favorites_toggle_effect u p favorites now Hkeys Hpay)
      as (Hcode & Hkeys' & Hframe & Hwas & Hnow). fold r in Hcode, Hkeys', Hframe, Hnow.
    split; [done|]. split; [done|]. split; [done|]. split; [done|].
    rewrite !Hget, Hwas, Hnow. by destruct now.
  - destruct (post_favorites_toggle_cases u p favorites Hkeys)
      as [(l1 & e & l2 & -> & He & Hothers & Hr)|[Hnot [(row & Hrow & Hid & Hr)| Hr]]];
      fold r in Hr; rewrite Hr in *; cbn [fst snd payload code] in *; done.
Qed.

(** X16.  Two toggles of a favourite that are both answered [favorited] give
    opposite answers and leave every favourite, of every user, as it was
    before the first. *)
Theorem post_favorites_toggle_twice u p favorites b1 b2 :
  favorite_keys favorites →
  let r1 := post_favorites_toggle favorite_accepts new_id u p favorites in
  let r2 := post_favorites_toggle favorite_accepts new_id u p r1.2 in
  payload r1.1 = Favorited b1 → payload r2.1 = Favorited b2 →
  b2 = negb b1 ∧
  ∀ u' p', existsb (is_favorite u' p') r2.2 = existsb (is_favorite u' p') favorites.
Proof.
  intros Hkeys r1 r2 H1 H2.
  destruct (post_favorites_toggle_effect u p favorites b1 Hkeys H1)
    as (_ & Hkeys1 & Hframe1 & Hwas1 & Hnow1).
  fold r1 in Hkeys1, Hframe1, Hnow1.
  destruct (post_favorites_toggle_effect u p r1.2 b2 Hkeys1 H2)
    as (_ & _ & Hframe2 & Hwas2 & Hnow2).
  fold r2 in Hframe2, Hnow2.
  assert (b2 = negb b1) as Hb.
  { rewrite Hnow1 in Hwas2. destruct b1, b2; done. }
  split; [done|].
  intros u' p'. destruct (decide ((u', p') = (u, p))) as [[= -> ->]|Hne].
  - rewrite Hnow2, Hwas1. done.
  - by rewrite Hframe2, Hframe1.
Qed.

(** *** Logging in *)

Lemma find_first_Some {A} (f : A → bool) (m : gmap Id A) id a :
  find_first f m = Some (id, a) → m !! id = Some a ∧ f a = true.
Proof.
  unfold find_first. intros [Hin Hf]%find_some.
  split; [|done]. by apply elem_of_map_to_list, list_elem_of_In.
Qed.

Lemma find_first_None {A} (f : A → bool) (m : gmap Id A) :
  find_first f m = None ↔ ∀ id a, m !! id = Some a → f a = false.
Proof.
  unfold find_first. rewrite find_none_elem. split.
  - intros H id a Ha. apply (H (id, a)). by apply elem_of_map_to_list.
  - intros H [id a] Ha. apply (H id a). by apply elem_of_map_to_list.
Qed.

Lemma credentials_match_spec req u :
  credentials_match req u = true ↔
  User.email u = Some (LoginReq.email req) ∧
  User.password u = Some (LoginReq.password req).
Proof.
  unfold credentials_match. by rewrite andb_true_iff, !bool_decide_eq_true.
Qed.


Lemma post_auth_register_created req db :
  status (post_auth_register accepts new_id req db).1 = 201%nat →
  ∃ name userData,
    RegisterReq.userData req = Some userData ∧
    users (post_auth_register accepts new_id req db).2 =
      <[new_id (dom (users db)) := new_user name userData]> (users db).
Proof.
  remember (post_auth_register accepts new_id req db) as r eqn:Hr.
  unfold post_auth_register, reply in Hr.
  destruct (RegisterReq.userData req) as [userData|]; [|by subst r].
  destruct (UserData.name userData) as [name|]; [|by subst r].
  destruct (decide (name = "")); [by subst r|].
  unfold try_respond, js_get in Hr.
  destruct (RegisterReq.addressData req) as [addressData|]; [|by subst r].
  unfold bind, ret in Hr. rewrite user_create_run in Hr. cbv zeta in Hr.
  destruct (accepts db _); [|by subst r].
  intros _. exists name, userData. split; [done|].
  destruct (RegisterReq.shopData req); by subst r.
Qed.

(** X3.  Who has registered can log in: after a [POST /auth/register] answered
    201 for a user with an e-mail and a password, [POST /auth/login] with
    that e-mail and that password answers 200 with a user that has them. *)
Theorem register_then_login req db userData e pw :
  RegisterReq.userData req = Some userData →
  UserData.email userData = Some e →
  UserData.password userData = Some pw →
  status (post_auth_register accepts new_id req db).1 = 201%nat →
  let db' := (post_auth_register accepts new_id req db).2 in
  let r := post_auth_login (LoginReq.mk e pw) db' in
  status r = 200%nat ∧
  ∃ id u, body r = BUser id u (shop_of id db') ∧ users db' !! id = Some u ∧
    User.email u = Some e ∧ User.password u = Some pw.
Proof.
  intros Hud He Hpw Hst db' r.
  destruct (post_auth_register_created req db Hst) as (name & ud & Hud' & Hu).
  assert (ud = userData) as -> by congruence. fold db' in Hu.
  subst r. unfold post_auth_login.
  destruct (find_first _ (users db')) as [[id u]|] eqn:Hfind.
  - apply find_first_Some in Hfind as [Hin [Hue Hup]%credentials_match_spec].
    split; [done|]. by exists id, u.
  - exfalso.
    pose proof (proj1 (find_first_None _ _) Hfind (new_id (dom (users db)))
                  (new_user name userData)) as Hno.
    rewrite Hu, lookup_insert_eq in Hno. specialize (Hno eq_refl).
    apply not_true_iff_false in Hno. apply Hno, credentials_match_spec.
    cbn. by rewrite He, Hpw.
Qed.

(** *** The seller's dashboard *)

Lemma filter_ext_elem {A} (f g : A → bool) (l : list A) :
  (∀ x, x ∈ l → f x = g x) → List.filter f l = List.filter g l.
Proof.
  induction l as [|a l IH]; intros H; [done|]. cbn.
  rewrite (H a) by (by left). rewrite IH; [done|]. intros x Hx. apply H. by right.
Qed.

Lemma filter_length_perm {A} (f : A → bool) (l l' : list A) :
  l ≡ₚ l' → length (List.filter f l) = length (List.filter f l').
Proof.
  induction 1 as [|x l l' _ IH|x y l|l l' l'' _ IH1 _ IH2]; cbn.
  - done.
  - destruct (f x); cbn; by rewrite IH.
  - by destruct (f x), (f y).
  - by rewrite IH1.
Qed.

Lemma filter_filter_and {A} (f g : A → bool) (l : list A) :
  List.filter f (List.filter g l) = List.filter (λ x, g x && f x) l.
Proof.
  induction l as [|a l IH]; [done|]. cbn.
  destruct (g a); cbn; [destruct (f a)|]; by rewrite IH.
Qed.

Lemma existsb_fmap {A B} (f : B → bool) (g : A → B) (l : list A) :
  existsb f (g <$> l) = existsb (λ x, f (g x)) l.
Proof. induction l as [|a l IH]; [done|]. cbn. by rewrite IH. Qed.

(** X8.  A checkout that succeeds shows on the dashboard of a shop as one more
    order to ship when one of its items is a product of the shop, and not
    at all otherwise; the other counts do not move. *)
Theorem checkout_on_the_dashboard shopId req db l :
  items_owned db →
  status (post_orders accepts new_id req db).1 = 201%nat →
  OrderReq.items req = Some l →
  let before := get_seller_stats shopId db in
  let after := get_seller_stats shopId (post_orders accepts new_id req db).2 in
  aEnviar after =
    (aEnviar before +
     if existsb (λ item, product_of_shop shopId db (Item.id item)) l then 1 else 0)%nat ∧
  aPagar after = aPagar before ∧
  enviado after = enviado before ∧
  cancelado after = cancelado before.
Proof.
  intros Howned Hst Hl before after.
  set (db' := (post_orders accepts new_id req db).2) in *.
  set (oid := new_id (dom (orders db))).
  destruct (post_orders_success accepts new_id req db Hst)
    as (l' & Hl' & _ & _ & _ & _ & _ & Ho & _ & Hp).
  assert (l' = l) as -> by congruence. fold db' oid in Ho, Hp.
  assert (orders db !! oid = None) as Hfresh by apply not_elem_of_dom, new_id_fresh.
  assert (∀ pid, product_of_shop shopId db' pid = product_of_shop shopId db pid) as Hshop.
  { intros pid. unfold product_of_shop. rewrite Hp.
    by destruct (products db !! pid). }
  assert (∀ row, row ∈ map_to_list (orders db) →
            order_of_shop shopId db' row = order_of_shop shopId db row) as Hold.
  { intros [i o] Hi%elem_of_map_to_list. unfold order_of_shop. cbn [fst].
    subst db'. rewrite post_orders_keeps_items;
      [|done|apply elem_of_dom; eauto].
    clear -Hshop. induction (items_of i db) as [|x xs IH]; [done|]. cbn.
    unfold sold_by at 1 3. by rewrite Hshop, IH. }
  assert (order_of_shop shopId db' (oid, order_data req) =
          existsb (λ item, product_of_shop shopId db (Item.id item)) l) as Hnew.
  { unfold order_of_shop. cbn [fst].
    pose proof (post_orders_items_of accepts new_id new_id_fresh req db l Hst Hl Howned)
      as Hsnap. fold db' oid in Hsnap.
    transitivity (existsb (λ r, product_of_shop shopId db (ItemCreate.productId r))
                    (snapshot <$> items_of oid db')).
    - rewrite existsb_fmap. clear -Hshop.
      induction (items_of oid db') as [|x xs IH]; [done|]. cbn.
      unfold sold_by at 1. by rewrite Hshop, IH.
    - rewrite Hsnap, existsb_fmap. done. }
  assert (∀ s, count_status s (shop_orders shopId db') =
               ((if order_of_shop shopId db' (oid, order_data req) &&
                    bool_decide ("A Enviar" = s) then 1 else 0) +
                count_status s (shop_orders shopId db))%nat) as Hcount.
  { intros s. unfold count_status, shop_orders. rewrite !filter_filter_and.
    rewrite (filter_length_perm _ (map_to_list (orders db'))
               ((oid, order_data req) :: map_to_list (orders db)));
      [|rewrite Ho; by apply map_to_list_insert].
    cbn [List.filter fst snd]. cbn [order_data Order.status].
    rewrite (filter_ext_elem
      (λ x, order_of_shop shopId db' x && bool_decide (Order.status x.2 = s))
      (λ x, order_of_shop shopId db x && bool_decide (Order.status x.2 = s)));
      [|intros x Hx; by rewrite Hold].
    by destruct (_ && _). }
  subst before after. unfold get_seller_stats. cbn [aPagar aEnviar enviado cancelado].
  rewrite !Hcount, Hnew.
  rewrite (bool_decide_eq_true_2 ("A Enviar" = "A Enviar")) by done.
  rewrite !bool_decide_eq_false_2 by done.
  rewrite andb_true_r, !andb_false_r.
  repeat split; try done. destruct (existsb _ l); lia.
Qed.

End MoreProperties.

(** ** The further properties on the example tables *)


Lemma post_auth_register_all_or_nothing_witness :
  ∃ uid u, users db0 !! uid = None ∧
    users (post_auth_register fk_accepts next_id bia db0).2 = <[uid := u]> (users db0) ∧
    User.role u = "SELLER".
Proof.
  destruct (post_auth_register_all_or_nothing fk_accepts next_id next_id_fresh bia db0)
    as [_ Hok].
  destruct (Hok eq_refl) as (uid & u & ud & Hud & Hnew & Hu & _ & _ & Hrole & _).
  injection Hud as <-. exists uid, u.
  split; [exact Hnew|]. split; [exact Hu|exact Hrole].
Defined.


Lemma db0_primary : primary_of db0 "u1" "a1".
Proof. exists (home "u1" true). by repeat split. Qed.

Lemma address_writes_not_atomic_witness :
  primary_of db0 "u1" "a1" ∧
  (status (post_addresses refuses next_id (address_of "u1" (Some true)) db0).1 = 500%nat ∧
   ∀ j, ¬ primary_of (post_addresses refuses next_id
                        (address_of "u1" (Some true)) db0).2 "u1" j) ∧
  (status (put_addresses "a9" (address_of "u1" (Some true)) db0).1 = 500%nat ∧
   ∀ j, ¬ primary_of (put_addresses "a9" (address_of "u1" (Some true)) db0).2 "u1" j).
Proof.
  destruct (address_writes_not_atomic refuses next_id (address_of "u1" (Some true)) "u1" db0
              eq_refl eq_refl) as [Hpost Hput].
  split; [exact db0_primary|]. split.
  - apply Hpost. discriminate.
  - apply (Hput "a9"). reflexivity.
Defined.

Lemma post_orders_only_stock_sold_witness :
  ∃ p, products db0 !! "X" = Some p ∧
    Product.name (sale 3 shirt) = Product.name p ∧
    Product.price (sale 3 shirt) = Product.price p.
Proof.
  destruct (post_orders_only_stock_sold fk_accepts next_id (cart (Some [line "X" 3])) db0)
    as (_ & _ & _ & _ & Hframe).
  destruct (Hframe "X" (sale 3 shirt) eq_refl) as (p & Hp & Hname & _ & Hprice & _).
  exists p. split; [exact Hp|]. split; [exact Hname|exact Hprice].
Defined.

Lemma items_owned_kept_witness :
  items_owned (post_orders fk_accepts next_id (cart (Some [line "X" 3])) db0).2 ∧
  items_owned (post_orders_mobile fk_accepts next_id (cart (Some [line "X" 3])) db0).2.
Proof.
  destruct (items_owned_kept fk_accepts next_id db0 db0_items_owned)
    as (Hweb & Hmobile & _).
  split; [apply Hweb|apply Hmobile].
Defined.


Lemma delete_addresses_effect_witness :
  ∃ a, addresses db0 !! "a1" = Some a ∧
    ∀ j, ¬ primary_of (delete_addresses "a1" db0).2 (Address.userId a) j.
Proof.
  destruct (delete_addresses_effect "a1" db0) as (_ & _ & Hok).
  destruct (Hok eq_refl) as (a & Ha & _ & _ & _ & _ & Hprimary).
  exists a. split; [exact Ha|]. apply (Hprimary db0_one_primary).
  assert (addresses db0 !! "a1" = Some (home "u1" true)) as Hrow by reflexivity.
  rewrite Hrow in Ha. injection Ha as <-. reflexivity.
Defined.

Lemma put_addresses_keeps_owner_witness :
  ∃ a', addresses (put_addresses "a2" (address_of "u2" (Some true)) db0).2 !! "a2"
          = Some a' ∧
    Address.userId a' = "u1" ∧ Address.isPrimary a' = true.
Proof.
  destruct (put_addresses_keeps_owner "a2" (address_of "u2" (Some true)) db0
              (home "u1" false) eq_refl)
    as (_ & _ & Howner & a' & Ha' & _ & _ & _ & _ & _ & _ & _ & _ & Hflag).
  destruct (Howner "a2" (home "u1" false) eq_refl) as (b' & Hb' & Hu).
  exists a'. split; [exact Ha'|]. split.
  - rewrite Hb' in Ha'. injection Ha' as <-. exact Hu.
  - exact (Hflag true eq_refl).
Defined.

Lemma patch_orders_status_last_wins_witness :
  let db := (post_orders fk_accepts next_id (cart (Some [line "X" 3])) db0).2 in
  let r1 := patch_orders_status "0" (Some "Concluído") db in
  let r2 := patch_orders_status "0" (Some "A Pagar") r1.2 in
  status r2.1 = 200%nat ∧
  ∃ o', orders r2.2 !! "0" = Some o' ∧ Order.status o' = "A Pagar".
Proof.
  intros db r1 r2.
  destruct (patch_orders_status_last_wins "0" "Concluído" "A Pagar" db) as [_ Hok].
  destruct (Hok (order_data (cart (Some [line "X" 3]))) eq_refl)
    as (Hst & _ & o' & _ & Ho' & Hs & _).
  split; [exact Hst|]. exists o'. split; [exact Ho'|exact Hs].
Defined.

Lemma cart0_keys : cart_keys cart0.
Proof. apply (bool_decide_unpack _). by vm_compute. Qed.

Lemma cart0_merged : cart_merged cart0.
Proof. apply (bool_decide_unpack _). by vm_compute. Qed.

Lemma favorites0_keys : favorite_keys favorites0.
Proof. split; apply (bool_decide_unpack _); by vm_compute. Qed.




Lemma delete_cart_user_empties_witness :
  get_cart "u1" (delete_cart_user "u1" cart0).2 = [] ∧
  get_cart "u2" (delete_cart_user "u1" cart0).2 = get_cart "u2" cart0 ∧
  cart_keys (delete_cart_user "u1" cart0).2.
Proof.
  destruct (delete_cart_user_empties any_row next_id "u1" cart0)
    as (_ & Hempty & _ & Hothers & Hkeys & _).
  split; [exact Hempty|]. split; [apply Hothers; discriminate|exact (Hkeys cart0_keys)].
Defined.

Lemma post_favorites_toggle_flips_witness :
  let r := post_favorites_toggle any_row next_id "u1" "X" favorites0 in
  favorite_keys r.2 ∧
  existsb (is_favorite "u2" "X") r.2 = existsb (is_favorite "u2" "X") favorites0 ∧
  ("X" ∈ get_favorites_user "u1" r.2 ↔ false = true).
Proof.
  intros r.
  destruct (post_favorites_toggle_flips any_row next_id next_id_fresh "u1" "X" favorites0
              favorites0_keys) as (Hkeys & Hothers & Hflip).
  fold r in Hkeys, Hothers, Hflip.
  split; [exact Hkeys|]. split; [apply Hothers; discriminate|].
  exact (proj2 (proj2 (proj2 Hflip))).
Defined.

Lemma post_favorites_toggle_twice_witness :
  let r1 := post_favorites_toggle any_row next_id "u1" "X" favorites0 in
  let r2 := post_favorites_toggle any_row next_id "u1" "X" r1.2 in
  true = negb false ∧
  ∀ u p, existsb (is_favorite u p) r2.2 = existsb (is_favorite u p) favorites0.
Proof.
  exact (post_favorites_toggle_twice any_row next_id next_id_fresh "u1" "X" favorites0
           false true favorites0_keys eq_refl eq_refl).
Defined.


Lemma register_then_login_witness :
  status (post_auth_login (LoginReq.mk "bia@loja.br" "senha")
            (post_auth_register fk_accepts next_id bia db0).2) = 200%nat.
Proof.
  destruct (register_then_login fk_accepts next_id bia db0
              (UserData.mk (Some "Bia") (Some "bia@loja.br") (Some "senha")
                 None None None None)
              "bia@loja.br" "senha" eq_refl eq_refl eq_refl eq_refl) as [Hst _].
  exact Hst.
Defined.

Lemma db1_items_owned : items_owned db1.
Proof. intros i Hi. by apply elem_of_nil in Hi. Qed.

Lemma checkout_on_the_dashboard_witness :
  let db' := (post_orders fk_accepts next_id
                (cart (Some [line "X" 1; line "Y" 2])) db1).2 in
  aEnviar (get_seller_stats "s1" db') = (aEnviar (get_seller_stats "s1" db1) + 1)%nat ∧
  aEnviar (get_seller_stats "s2" db') = (aEnviar (get_seller_stats "s2" db1) + 0)%nat.
Proof.
  intros db'.
  destruct (checkout_on_the_dashboard fk_accepts next_id next_id_fresh "s1"
              (cart (Some [line "X" 1; line "Y" 2])) db1 [line "X" 1; line "Y" 2]
              db1_items_owned eq_refl eq_refl) as [H1 _].
  destruct (checkout_on_the_dashboard fk_accepts next_id next_id_fresh "s2"
              (cart (Some [line "X" 1; line "Y" 2])) db1 [line "X" 1; line "Y" 2]
              db1_items_owned eq_refl eq_refl) as [H2 _].
  split; [exact H1|exact H2].
Defined.
